(** * The semantic segmentation service node

    A shallow embedding of [semantic_segmentation_integrate_node.cpp]: the
    class [Labeler] with its two service handlers [label_cloud] and
    [label_cloud_plus] and the private method [publish_clouds].

    Conventions of the embedding.
    - A C++ [float] is an IEEE 754 binary32 value, [spec_float] at precision
      24 and maximal exponent 128.
    - An [int] or [uint] is a [Z]; every arithmetic operation the source
      performs on one of its counters is followed by the 32-bit wrap-around.
    - A [std::vector] is a list.  An access [v[i]] outside of the vector, an
      allocation of a negative number of elements, and every other step after
      which the handler does not return normally, make the embedding return
      [None].
    - A [std::map] iterates in ascending key order.
    - Calls that leave the class (segmentation, feature computation, random
      forest, dense CRF, publisher) are recorded as events, in the order in
      which the handler performs them. *)

From Stdlib Require Import ZArith Lia String Floats.SpecFloat.
From stdpp Require Import base option list gmap strings sorting.

Local Open Scope Z_scope.

(** ** Machine numbers *)

Module Float32.
Definition prec : Z := 24.
Definition emax : Z := 128.
Definition float : Type := spec_float.

Definition zero : float := S754_zero false.
Definition of_int (n : Z) : float := binary_normalize prec emax n 0 false.
Definition add (x y : float) : float := SFadd prec emax x y.
Definition div (x y : float) : float := SFdiv prec emax x y.

(** The C++ comparison [x > y]; false as soon as one side is not a number. *)
Definition gtb (x y : float) : bool :=
  match SFcompare x y with
  | Some Gt => true
  | _ => false
  end.

Definition is_nan (x : float) : bool :=
  match x with
  | S754_nan => true
  | _ => false
  end.

(** The literal [0.01]. *)
Definition centi : float := div (of_int 1) (of_int 100).
End Float32.

Abbreviation float := Float32.float.

Definition int_max : Z := 2 ^ 31 - 1.
Definition wrap_int (z : Z) : Z := (z + 2 ^ 31) mod 2 ^ 32 - 2 ^ 31.
Definition wrap_uint (z : Z) : Z := z mod 2 ^ 32.

(** ** Vectors *)

(** [std::vector<T> v(n, x)]: a negative [int] converts to a size above
    [max_size()] and the constructor throws. *)
Definition vector_new {A} (n : Z) (x : A) : option (list A) :=
  if decide (0 <= n) then Some (replicate (Z.to_nat n) x) else None.

(** [v[i]] as an rvalue. *)
Definition vector_get {A} (v : list A) (i : Z) : option A :=
  if decide (0 <= i) then v !! Z.to_nat i else None.

(** [v[i] = f(v[i])]. *)
Definition vector_update {A} (v : list A) (i : Z) (f : A -> A) : option (list A) :=
  x ← vector_get v i; Some (<[Z.to_nat i := f x]> v).

(** [v[i] = x]. *)
Definition vector_set {A} (v : list A) (i : Z) (x : A) : option (list A) :=
  vector_update v i (fun _ => x).

(** [v.resize(n)] with value-initialised new elements. *)
Definition vector_resize {A} (n : Z) (dflt : A) (v : list A) : option (list A) :=
  if decide (0 <= n) then Some (resize (Z.to_nat n) dflt v) else None.

(** ** Points, clouds, matrices *)

Module PointXYZRGBA.
Record t := { x : float; y : float; z : float; r : Z; g : Z; b : Z; a : Z }.
Definition set_rgb (p : t) (r' g' b' : Z) : t :=
  {| x := x p; y := y p; z := z p; r := r'; g := g'; b := b'; a := a p |}.
End PointXYZRGBA.

Module PointXYZRGB.
Record t := { x : float; y : float; z : float; r : Z; g : Z; b : Z }.
End PointXYZRGB.

(** [geometry_msgs/Point32], the element type of [res.points]. *)
Module Point32.
Record t := { x : float; y : float; z : float }.
Definition zero : t := {| x := Float32.zero; y := Float32.zero; z := Float32.zero |}.
End Point32.

Module PointCloud.
Record t := {
  points : list PointXYZRGBA.t;
  sensor_origin_ : float * float * float * float }.
Definition size (c : t) : Z := Z.of_nat (length (points c)).
Definition with_points (c : t) (ps : list PointXYZRGBA.t) : t :=
  {| points := ps; sensor_origin_ := sensor_origin_ c |}.
End PointCloud.

(** [Eigen::MatrixXf]: the dimensions and the coefficient at [(row, col)]. *)
Module MatrixXf.
Record t := { rows : Z; cols : Z; coeff : Z -> Z -> float }.
(** [Eigen::MatrixXf m(rows, cols)].  Eigen leaves the coefficients unset;
    here they start at zero. *)
Definition make (rows cols : Z) : t :=
  {| rows := rows; cols := cols; coeff := fun _ _ => Float32.zero |}.
(** Overwrite the column [col] with the vector [v], row by row. *)
Definition set_col (m : t) (col : Z) (v : list float) : t :=
  {| rows := rows m; cols := cols m;
     coeff := fun i j =>
       if decide (j = col) then
         match vector_get v i with Some x => x | None => coeff m i j end
       else coeff m i j |}.
End MatrixXf.

(** [libf::DataPoint]. *)
Definition DataPoint : Type := list float.

(** ** Segments *)

(** Modelled from the spec: class [Voxel] of [voxel.h], which is not among
    the sources.  A segment has an ordered set of point indices into the
    voxelized cloud, a point count, a feature vector and a flag telling
    whether the features were computed. *)
Record Voxel := {
  voxel_indices : list Z;
  voxel_features : DataPoint;
  voxel_features_computed : bool }.

(** Modelled from the spec: [Voxel::getSize], the point count of the segment. *)
Definition getSize (v : Voxel) : Z := Z.of_nat (length (voxel_indices v)).

(** Modelled from the spec: [Voxel::getIndices], the ordered member indices. *)
Definition getIndices (v : Voxel) : list Z := voxel_indices v.

(** Modelled from the spec: [Voxel::getFeatures], the feature vector. *)
Definition getFeatures (v : Voxel) : DataPoint := voxel_features v.

(** ** Libraries and collaborators outside of the class *)

Record Collaborators := {
  (** OpenCV's [cvtColor(_, _, CV_BGR2Lab)] on one 8-bit pixel. *)
  cvtColor_BGR2Lab : Z * Z * Z -> Z * Z * Z;
  (** The feature extraction routine behind [Voxel::computeFeatures]. *)
  feature_extraction : Voxel -> DataPoint;
  (** The pairwise feature columns of the member at a position of a segment. *)
  appearance_column : Voxel -> nat -> float -> float -> list float;
  smoothness_column : Voxel -> nat -> float -> list float;
  (** [DenseCRF crf(N, C)], [setUnaryEnergy], two [addPairwiseEnergy] with
      Potts compatibilities, then [inference(iterations)]. *)
  DenseCRF_inference :
    Z -> Z -> MatrixXf.t -> MatrixXf.t -> float -> MatrixXf.t -> float -> Z -> MatrixXf.t }.

(** ** Messages *)

(** [sensor_msgs::PointCloud2], decoded as [pcl::fromPCLPointCloud2] does. *)
Record PointCloud2 := {
  header_frame_id : string;
  cloud_data : list PointXYZRGBA.t }.

Record ObservationRequest := {
  obs_waypoint_id : string;
  obs_resolution : float }.

Record ObservationInstanceRequest := {
  inst_waypoint_id : string;
  inst_instance_number : Z;
  inst_resolution : float }.

Record SensorOriginRequest := { origin_waypoint_id : string }.

(** [origin_srv.response.origin]. *)
Record SensorOrigin := { origin_x : float; origin_y : float; origin_z : float }.

(** The request of [LabelIntegratedPointCloud]. *)
Record Request := { waypoint_id : string }.

(** The request of [LabelIntegratedPointInstanceCloud]. *)
Module InstanceRequest.
Record t := { waypoint_id : string; instance_number : Z }.
End InstanceRequest.

(** The response of both services. *)
Module Response.
Record t := {
  index_to_label_name : list string;
  label : list Z;
  label_probabilities : list float;
  label_frequencies : list float;
  points : list Point32.t }.
Definition empty : t :=
  {| index_to_label_name := []; label := []; label_probabilities := [];
     label_frequencies := []; points := [] |}.
End Response.

(** ** The members of [Labeler] *)

(** [Utils::Config]: [get<float>(name)] and [get<int>(name)]. *)
Record Config := {
  get_float : string -> float;
  get_int : string -> Z }.

(** [Utils::RgbLabelConversion]. *)
Record RgbLabelConversion := {
  getValidLabelCount : Z;
  getLabelNames : list string;
  labelToRgb : Z -> Z * Z * Z }.

(** [Utils::DataLoader].  [extractVoxels] fills a
    [std::map<int, std::shared_ptr<Voxel>>] and a voxelized cloud of its
    own making; the map is given by its entries in the order of iteration,
    ascending keys. *)
Record DataLoader := {
  getLabelConverter : RgbLabelConversion;
  extractVoxels : PointCloud.t -> list (Z * Voxel) * PointCloud.t }.

(** [libf::RandomForest<libf::DecisionTree>]. *)
Record RandomForest := { classLogPosterior : DataPoint -> list float }.

(** [ros::ServiceClient]: [call] answers [false] ([None]) or fills the
    response. *)
Record ServiceClient := {
  call_ObservationService : ObservationRequest -> option PointCloud2;
  call_ObservationInstanceService : ObservationInstanceRequest -> option PointCloud2;
  call_SensorOriginService : SensorOriginRequest -> option SensorOrigin }.

Record Labeler := {
  _conf : Config;
  _dl : DataLoader;
  _label_converter : RgbLabelConversion;
  _forest : RandomForest;
  _C : Z;
  _minimum_points : Z;
  _cloud_service : ServiceClient;
  _origin_service : ServiceClient;
  _stored_waypoints : gmap string PointCloud.t;
  _frame_id : string }.

(** The constructor, once the forest file has been read. *)
Definition Labeler_new (conf : Config) (dl : DataLoader) (forest : RandomForest)
    (cloud_service origin_service : ServiceClient) : Labeler :=
  {| _conf := conf;
     _dl := dl;
     _label_converter := getLabelConverter dl;
     _forest := forest;
     _C := getValidLabelCount (getLabelConverter dl);
     _minimum_points := get_int conf "min_point_count";
     _cloud_service := cloud_service;
     _origin_service := origin_service;
     _stored_waypoints := ∅;
     _frame_id := "" |}.

Definition set_frame_id (self : Labeler) (frame_id : string) : Labeler :=
  {| _conf := _conf self; _dl := _dl self;
     _label_converter := _label_converter self; _forest := _forest self;
     _C := _C self; _minimum_points := _minimum_points self;
     _cloud_service := _cloud_service self;
     _origin_service := _origin_service self;
     _stored_waypoints := _stored_waypoints self;
     _frame_id := frame_id |}.

(** [_stored_waypoints[id] = cloud]. *)
Definition store_waypoint (self : Labeler) (id : string) (cloud : PointCloud.t) : Labeler :=
  {| _conf := _conf self; _dl := _dl self;
     _label_converter := _label_converter self; _forest := _forest self;
     _C := _C self; _minimum_points := _minimum_points self;
     _cloud_service := _cloud_service self;
     _origin_service := _origin_service self;
     _stored_waypoints := <[id := cloud]> (_stored_waypoints self);
     _frame_id := _frame_id self |}.

(** ** Events *)

Inductive Event :=
  | EvExtractVoxels
  | EvComputeFeatures (segment : Z)
  | EvClassLogPosterior (segment : Z) (feat : DataPoint)
  | EvInference (N C : Z)
  | EvPublish (fused : list PointXYZRGB.t) (frame_id : string).

(** What a handler leaves behind when it returns. *)
Record Outcome := {
  returned : bool;
  response : Response.t;
  labeler : Labeler;
  events : list Event }.

(** ** Loops *)

(** [for (auto x : l) body]: the state is threaded through the iterations,
    and the loop is left as soon as one of them does not return. *)
Fixpoint for_each {A S : Type} (body : S -> A -> option S) (l : list A) (s : S)
    : option S :=
  match l with
  | [] => Some s
  | x :: l' => s' ← body s x; for_each body l' s'
  end.

(** ** The pipeline of [label_cloud] *)

Record CrfMats := {
  unary : MatrixXf.t;
  feature : MatrixXf.t;
  feature2 : MatrixXf.t }.

(** The locals of the decoding loop: [voxelized_cloud->points],
    [result_prob], [result_labels], [label_frequencies], [point_index]. *)
Record Decoding := {
  cloud_points : list PointXYZRGBA.t;
  result_prob : list float;
  result_labels : list Z;
  label_frequencies : list float;
  point_index : Z }.

(** [std::map<std::string, Ptr>] orders its entries by key. *)
Definition stored_order (e1 e2 : string * PointCloud.t) : Prop :=
  String.leb e1.1 e2.1 = true.

#[global] Instance stored_order_dec e1 e2 : Decision (stored_order e1 e2).
Proof. unfold stored_order. apply _. Defined.

(** The entries of [_stored_waypoints], as [for (auto cld : _stored_waypoints)]
    visits them. *)
Definition stored_clouds (self : Labeler) : list (string * PointCloud.t) :=
  merge_sort stored_order (map_to_list (_stored_waypoints self)).

(** Lines 406-412: the point pushed onto [fused->points]. *)
Definition fused_point (p : PointXYZRGBA.t) : PointXYZRGB.t :=
  {| PointXYZRGB.x := PointXYZRGBA.x p;
     PointXYZRGB.y := PointXYZRGBA.y p;
     PointXYZRGB.z := PointXYZRGBA.z p;
     PointXYZRGB.r := PointXYZRGBA.r p;
     PointXYZRGB.g := PointXYZRGBA.g p;
     PointXYZRGB.b := PointXYZRGBA.b p |}.

(** Lines 398-401: [size += cld.second->size()]. *)
Definition fused_size (stored : list (string * PointCloud.t)) : Z :=
  fold_left (fun size cld => wrap_int (size + PointCloud.size cld.2)) stored 0.

(** Lines 404-414. *)
Definition fuse (stored : list (string * PointCloud.t)) : list PointXYZRGB.t :=
  fold_left
    (fun fused cld =>
       fold_left (fun fused p => fused ++ [fused_point p])
                 (PointCloud.points cld.2) fused)
    stored [].

(** [publish_clouds], lines 394-425.  [reserve] of a negative [int] throws. *)
Definition publish_clouds (self : Labeler) : option (list Event) :=
  let size := fused_size (stored_clouds self) in
  if decide (0 <= size) then
    Some [EvPublish (fuse (stored_clouds self)) (_frame_id self)]
  else None.

Section Model.

Variable W : Collaborators.

(** Modelled from the spec: [Voxel::computeFeatures] runs the feature
    extraction of the segment and raises the flag. *)
Definition computeFeatures (v : Voxel) : Voxel :=
  {| voxel_indices := voxel_indices v;
     voxel_features := feature_extraction W v;
     voxel_features_computed := true |}.

(** Modelled from the spec: [Voxel::addDataToCrfMats] gives every member
    point of the segment, in member order, the next free column: the unary
    column replicates the posterior of the segment, the two pairwise columns
    hold the scaled features of the point, and [index] moves on by one. *)
Definition addDataToCrfMats (v : Voxel) (mats : CrfMats) (index : Z)
    (probs : list float)
    (appearance_color_sigma appearance_range_sigma smoothnes_range_sigma : float)
    : CrfMats * Z :=
  fold_left
    (fun '(m, index) k =>
       ({| unary := MatrixXf.set_col (unary m) index probs;
           feature := MatrixXf.set_col (feature m) index
             (appearance_column W v k appearance_color_sigma appearance_range_sigma);
           feature2 := MatrixXf.set_col (feature2 m) index
             (smoothness_column W v k smoothnes_range_sigma) |},
        wrap_uint (index + 1)))
    (seq 0 (length (voxel_indices v))) (mats, index).

(** Lines 93-107: the colours go through OpenCV as one BGR pixel per point
    and come back in the same channel order. *)
Definition convert_to_lab (cloud : PointCloud.t) : PointCloud.t :=
  let rgb :=
    map (fun p => (PointXYZRGBA.b p, PointXYZRGBA.g p, PointXYZRGBA.r p))
        (PointCloud.points cloud) in
  let lab := map (cvtColor_BGR2Lab W) rgb in
  PointCloud.with_points cloud
    (zip_with (fun p '(c0, c1, c2) => PointXYZRGBA.set_rgb p c2 c1 c0)
              (PointCloud.points cloud) lab).

(** Lines 117-129: the running [N], the segments left in the map and the
    calls of [computeFeatures]. *)
Fixpoint filter_voxels (minimum_points : Z) (voxels : list (Z * Voxel)) (N : Z)
    : Z * list (Z * Voxel) * list Event :=
  match voxels with
  | [] => (N, [], [])
  | (id, v) :: rest =>
      let n := getSize v in
      if decide (n >= minimum_points) then
        let '(N', kept, evs) :=
          filter_voxels minimum_points rest (wrap_int (N + n)) in
        (N', (id, computeFeatures v) :: kept, EvComputeFeatures id :: evs)
      else
        filter_voxels minimum_points rest N
  end.

(** Lines 143-147. *)
Fixpoint build_crf_mats (self : Labeler) (voxels : list (Z * Voxel))
    (mats : CrfMats) (point_index : Z)
    (appearance_color_sigma appearance_range_sigma smoothnes_range_sigma : float)
    : CrfMats * Z * list Event :=
  match voxels with
  | [] => (mats, point_index, [])
  | (id, v) :: rest =>
      let feat := getFeatures v in
      let probs := classLogPosterior (_forest self) feat in
      let '(mats', point_index') :=
        addDataToCrfMats v mats point_index probs appearance_color_sigma
                         appearance_range_sigma smoothnes_range_sigma in
      let '(mats'', point_index'', evs) :=
        build_crf_mats self rest mats' point_index' appearance_color_sigma
                       appearance_range_sigma smoothnes_range_sigma in
      (mats'', point_index'', EvClassLogPosterior id feat :: evs)
  end.

(** Lines 154-158. *)
Definition paint_black (points : list PointXYZRGBA.t) : list PointXYZRGBA.t :=
  map (fun p => PointXYZRGBA.set_rgb p 0 0 0) points.

(** Lines 172-177: one round of the search for the largest probability;
    the accumulator is [(max_label, max_prob)]. *)
Definition max_label_step (map : MatrixXf.t) (point_index : Z)
    (acc : Z * float) (c : Z) : Z * float :=
  if Float32.gtb (MatrixXf.coeff map c point_index) acc.2
  then (c, MatrixXf.coeff map c point_index)
  else acc.

(** Lines 170-177.  Line 171 reads [map(0, point_index)] whatever [C] is;
    with no class the matrix has no such row, and the value below stands for
    nothing in the source.  The properties about a decoded label ask for at
    least one class, or for a request without any column. *)
Definition max_label_of (C : Z) (map : MatrixXf.t) (point_index : Z) : Z :=
  (fold_left (max_label_step map point_index) (seqZ 1 (C - 1))
             (0, MatrixXf.coeff map 0 point_index)).1.

(** Lines 187-188; the state is [(result_prob, label_frequencies, prob_idx)]. *)
Definition prob_step (map : MatrixXf.t) (point_index : Z)
    (st : list float * list float * Z) (c : Z)
    : option (list float * list float * Z) :=
  let '(result_prob, label_frequencies, prob_idx) := st in
  result_prob' ← vector_set result_prob prob_idx (MatrixXf.coeff map c point_index);
  label_frequencies' ←
    vector_update label_frequencies c
      (fun f => Float32.add f (MatrixXf.coeff map c point_index));
  Some (result_prob', label_frequencies', wrap_int (prob_idx + 1)).

(** Lines 170-190: the body of [for (int i : indices)]. *)
Definition decode_point (self : Labeler) (map : MatrixXf.t) (d : Decoding) (i : Z)
    : option Decoding :=
  let max_label := max_label_of (_C self) map (point_index d) in
  let '(r, g, b) := labelToRgb (_label_converter self) max_label in
  cloud_points' ←
    vector_update (cloud_points d) i (fun p => PointXYZRGBA.set_rgb p r g b);
  result_labels' ← vector_set (result_labels d) (point_index d) max_label;
  let prob_idx := wrap_int (wrap_uint (wrap_uint (_C self) * point_index d)) in
  '(result_prob', label_frequencies', _) ←
    for_each (prob_step map (point_index d)) (seqZ 0 (_C self))
             (result_prob d, label_frequencies d, prob_idx);
  Some {| cloud_points := cloud_points';
          result_prob := result_prob';
          result_labels := result_labels';
          label_frequencies := label_frequencies';
          point_index := wrap_uint (point_index d + 1) |}.

(** Lines 167-192. *)
Definition decode_voxels (self : Labeler) (map : MatrixXf.t)
    (voxels : list (Z * Voxel)) (d : Decoding) : option Decoding :=
  for_each (fun d v => for_each (decode_point self map) (getIndices v.2) d)
           voxels d.

(** Lines 196-198. *)
Definition normalize_frequencies (C N : Z) (label_frequencies : list float)
    : option (list float) :=
  for_each
    (fun fr j => vector_update fr j (fun f => Float32.div f (Float32.of_int N)))
    (seqZ 0 C) label_frequencies.

(** Lines 213-216; the state is [(res.points, point_index)]. *)
Definition copy_point (points : list PointXYZRGBA.t) (st : list Point32.t * Z)
    (i : Z) : option (list Point32.t * Z) :=
  p ← vector_get points i;
  res_points ←
    vector_set st.1 st.2
      {| Point32.x := PointXYZRGBA.x p;
         Point32.y := PointXYZRGBA.y p;
         Point32.z := PointXYZRGBA.z p |};
  Some (res_points, wrap_uint (st.2 + 1)).

(** Lines 209-218. *)
Definition copy_points (points : list PointXYZRGBA.t) (voxels : list (Z * Voxel))
    (res_points : list Point32.t) : option (list Point32.t) :=
  st ← for_each (fun st v => for_each (copy_point points) (getIndices v.2) st)
                voxels (res_points, 0);
  Some st.1.

(** Lines 93-224: what [label_cloud] does once [cloud] is filled. *)
Definition label_acquired_cloud (self : Labeler) (req : Request)
    (res : Response.t) (cloud : PointCloud.t) : option Outcome :=
  let cloud := convert_to_lab cloud in
  let '(voxels, voxelized_cloud) := extractVoxels (_dl self) cloud in
  let '(N, voxels, ev_features) :=
    filter_voxels (_minimum_points self) voxels 0 in
  let appearance_color_sigma := get_float (_conf self) "appearance_color_sigma" in
  let appearance_range_sigma := get_float (_conf self) "appearance_range_sigma" in
  let appearance_weight := get_float (_conf self) "appearance_weight" in
  let smoothnes_range_sigma := get_float (_conf self) "smoothnes_range_sigma" in
  let smoothnes_weight := get_float (_conf self) "smoothnes_weight" in
  let mats :=
    {| unary := MatrixXf.make (_C self) N;
       feature := MatrixXf.make 6 N;
       feature2 := MatrixXf.make 3 N |} in
  let '(mats, _, ev_forest) :=
    build_crf_mats self voxels mats 0 appearance_color_sigma
                   appearance_range_sigma smoothnes_range_sigma in
  let map :=
    DenseCRF_inference W N (_C self) (unary mats) (feature mats)
      appearance_weight (feature2 mats) smoothnes_weight
      (get_int (_conf self) "crf_iterations") in
  let black := paint_black (PointCloud.points voxelized_cloud) in
  result_prob0 ← vector_new (wrap_int (N * _C self)) Float32.zero;
  result_labels0 ← vector_new N 0;
  label_frequencies0 ← vector_new (_C self) Float32.zero;
  d ← decode_voxels self map voxels
        {| cloud_points := black;
           result_prob := result_prob0;
           result_labels := result_labels0;
           label_frequencies := label_frequencies0;
           point_index := 0 |};
  frequencies ← normalize_frequencies (_C self) N (label_frequencies d);
  res_points0 ← vector_resize N Point32.zero (Response.points res);
  res_points ← copy_points (cloud_points d) voxels res_points0;
  let voxelized_cloud := PointCloud.with_points voxelized_cloud (cloud_points d) in
  let stored := store_waypoint self (waypoint_id req) voxelized_cloud in
  ev_publish ← publish_clouds stored;
  Some {| returned := true;
          response :=
            {| Response.index_to_label_name := getLabelNames (_label_converter self);
               Response.label := result_labels d;
               Response.label_probabilities := result_prob d;
               Response.label_frequencies := frequencies;
               Response.points := res_points |};
          labeler := stored;
          events :=
            EvExtractVoxels :: ev_features ++ ev_forest
              ++ EvInference N (_C self) :: ev_publish |}.

(** [Labeler::label_cloud], lines 63-225. *)
Definition label_cloud (self : Labeler) (req : Request) (res : Response.t)
    : option Outcome :=
  let srv_request :=
    {| obs_waypoint_id := waypoint_id req; obs_resolution := Float32.centi |} in
  match call_ObservationService (_cloud_service self) srv_request with
  | Some srv_response_cloud =>
      let origin_srv_request := {| origin_waypoint_id := waypoint_id req |} in
      match call_SensorOriginService (_origin_service self) origin_srv_request with
      | Some origin =>
          let cloud :=
            {| PointCloud.points := cloud_data srv_response_cloud;
               PointCloud.sensor_origin_ :=
                 (origin_x origin, origin_y origin, origin_z origin,
                  Float32.of_int 1) |} in
          let self := set_frame_id self (header_frame_id srv_response_cloud) in
          label_acquired_cloud self req res cloud
      | None =>
          Some {| returned := false; response := res; labeler := self; events := [] |}
      end
  | None =>
      Some {| returned := false; response := res; labeler := self; events := [] |}
  end.

End Model.

(** ** The pipeline of [label_cloud_plus]

    The second handler repeats the text of the first one; its loops are
    embedded from its own lines.  Both services answer with the same
    response fields. *)
Module Plus.
Section Model.

Variable W : Collaborators.

(** Lines 259-273. *)
Definition convert_to_lab (cloud : PointCloud.t) : PointCloud.t :=
  let rgb :=
    map (fun p => (PointXYZRGBA.b p, PointXYZRGBA.g p, PointXYZRGBA.r p))
        (PointCloud.points cloud) in
  let lab := map (cvtColor_BGR2Lab W) rgb in
  PointCloud.with_points cloud
    (zip_with (fun p '(c0, c1, c2) => PointXYZRGBA.set_rgb p c2 c1 c0)
              (PointCloud.points cloud) lab).

(** Lines 283-295. *)
Fixpoint filter_voxels (minimum_points : Z) (voxels : list (Z * Voxel)) (N : Z)
    : Z * list (Z * Voxel) * list Event :=
  match voxels with
  | [] => (N, [], [])
  | (id, v) :: rest =>
      let n := getSize v in
      if decide (n >= minimum_points) then
        let '(N', kept, evs) :=
          filter_voxels minimum_points rest (wrap_int (N + n)) in
        (N', (id, computeFeatures W v) :: kept, EvComputeFeatures id :: evs)
      else
        filter_voxels minimum_points rest N
  end.

(** Lines 309-313. *)
Fixpoint build_crf_mats (self : Labeler) (voxels : list (Z * Voxel))
    (mats : CrfMats) (point_index : Z)
    (appearance_color_sigma appearance_range_sigma smoothnes_range_sigma : float)
    : CrfMats * Z * list Event :=
  match voxels with
  | [] => (mats, point_index, [])
  | (id, v) :: rest =>
      let feat := getFeatures v in
      let probs := classLogPosterior (_forest self) feat in
      let '(mats', point_index') :=
        addDataToCrfMats W v mats point_index probs appearance_color_sigma
                         appearance_range_sigma smoothnes_range_sigma in
      let '(mats'', point_index'', evs) :=
        build_crf_mats self rest mats' point_index' appearance_color_sigma
                       appearance_range_sigma smoothnes_range_sigma in
      (mats'', point_index'', EvClassLogPosterior id feat :: evs)
  end.

(** Lines 320-324. *)
Definition paint_black (points : list PointXYZRGBA.t) : list PointXYZRGBA.t :=
  map (fun p => PointXYZRGBA.set_rgb p 0 0 0) points.

(** Lines 338-343. *)
Definition max_label_step (map : MatrixXf.t) (point_index : Z)
    (acc : Z * float) (c : Z) : Z * float :=
  if Float32.gtb (MatrixXf.coeff map c point_index) acc.2
  then (c, MatrixXf.coeff map c point_index)
  else acc.

(** Lines 336-343.  Line 337 reads [map(0, point_index)] whatever [C] is, as
    line 171 does. *)
Definition max_label_of (C : Z) (map : MatrixXf.t) (point_index : Z) : Z :=
  (fold_left (max_label_step map point_index) (seqZ 1 (C - 1))
             (0, MatrixXf.coeff map 0 point_index)).1.

(** Lines 353-354. *)
Definition prob_step (map : MatrixXf.t) (point_index : Z)
    (st : list float * list float * Z) (c : Z)
    : option (list float * list float * Z) :=
  let '(result_prob, label_frequencies, prob_idx) := st in
  result_prob' ← vector_set result_prob prob_idx (MatrixXf.coeff map c point_index);
  label_frequencies' ←
    vector_update label_frequencies c
      (fun f => Float32.add f (MatrixXf.coeff map c point_index));
  Some (result_prob', label_frequencies', wrap_int (prob_idx + 1)).

(** Lines 336-356. *)
Definition decode_point (self : Labeler) (map : MatrixXf.t) (d : Decoding) (i : Z)
    : option Decoding :=
  let max_label := max_label_of (_C self) map (point_index d) in
  let '(r, g, b) := labelToRgb (_label_converter self) max_label in
  cloud_points' ←
    vector_update (cloud_points d) i (fun p => PointXYZRGBA.set_rgb p r g b);
  result_labels' ← vector_set (result_labels d) (point_index d) max_label;
  let prob_idx := wrap_int (wrap_uint (wrap_uint (_C self) * point_index d)) in
  '(result_prob', label_frequencies', _) ←
    for_each (prob_step map (point_index d)) (seqZ 0 (_C self))
             (result_prob d, label_frequencies d, prob_idx);
  Some {| cloud_points := cloud_points';
          result_prob := result_prob';
          result_labels := result_labels';
          label_frequencies := label_frequencies';
          point_index := wrap_uint (point_index d + 1) |}.

(** Lines 333-358. *)
Definition decode_voxels (self : Labeler) (map : MatrixXf.t)
    (voxels : list (Z * Voxel)) (d : Decoding) : option Decoding :=
  for_each (fun d v => for_each (decode_point self map) (getIndices v.2) d)
           voxels d.

(** Lines 362-364. *)
Definition normalize_frequencies (C N : Z) (label_frequencies : list float)
    : option (list float) :=
  for_each
    (fun fr j => vector_update fr j (fun f => Float32.div f (Float32.of_int N)))
    (seqZ 0 C) label_frequencies.

(** Lines 379-382. *)
Definition copy_point (points : list PointXYZRGBA.t) (st : list Point32.t * Z)
    (i : Z) : option (list Point32.t * Z) :=
  p ← vector_get points i;
  res_points ←
    vector_set st.1 st.2
      {| Point32.x := PointXYZRGBA.x p;
         Point32.y := PointXYZRGBA.y p;
         Point32.z := PointXYZRGBA.z p |};
  Some (res_points, wrap_uint (st.2 + 1)).

(** Lines 375-384. *)
Definition copy_points (points : list PointXYZRGBA.t) (voxels : list (Z * Voxel))
    (res_points : list Point32.t) : option (list Point32.t) :=
  st ← for_each (fun st v => for_each (copy_point points) (getIndices v.2) st)
                voxels (res_points, 0);
  Some st.1.

(** Lines 259-390: what [label_cloud_plus] does once [cloud] is filled. *)
Definition label_acquired_cloud (self : Labeler) (req : InstanceRequest.t)
    (res : Response.t) (cloud : PointCloud.t) : option Outcome :=
  let cloud := convert_to_lab cloud in
  let '(voxels, voxelized_cloud) := extractVoxels (_dl self) cloud in
  let '(N, voxels, ev_features) :=
    filter_voxels (_minimum_points self) voxels 0 in
  let appearance_color_sigma := get_float (_conf self) "appearance_color_sigma" in
  let appearance_range_sigma := get_float (_conf self) "appearance_range_sigma" in
  let appearance_weight := get_float (_conf self) "appearance_weight" in
  let smoothnes_range_sigma := get_float (_conf self) "smoothnes_range_sigma" in
  let smoothnes_weight := get_float (_conf self) "smoothnes_weight" in
  let mats :=
    {| unary := MatrixXf.make (_C self) N;
       feature := MatrixXf.make 6 N;
       feature2 := MatrixXf.make 3 N |} in
  let '(mats, _, ev_forest) :=
    build_crf_mats self voxels mats 0 appearance_color_sigma
                   appearance_range_sigma smoothnes_range_sigma in
  let map :=
    DenseCRF_inference W N (_C self) (unary mats) (feature mats)
      appearance_weight (feature2 mats) smoothnes_weight
      (get_int (_conf self) "crf_iterations") in
  let black := paint_black (PointCloud.points voxelized_cloud) in
  result_prob0 ← vector_new (wrap_int (N * _C self)) Float32.zero;
  result_labels0 ← vector_new N 0;
  label_frequencies0 ← vector_new (_C self) Float32.zero;
  d ← decode_voxels self map voxels
        {| cloud_points := black;
           result_prob := result_prob0;
           result_labels := result_labels0;
           label_frequencies := label_frequencies0;
           point_index := 0 |};
  frequencies ← normalize_frequencies (_C self) N (label_frequencies d);
  res_points0 ← vector_resize N Point32.zero (Response.points res);
  res_points ← copy_points (cloud_points d) voxels res_points0;
  let voxelized_cloud := PointCloud.with_points voxelized_cloud (cloud_points d) in
  let stored :=
    store_waypoint self (InstanceRequest.waypoint_id req) voxelized_cloud in
  ev_publish ← publish_clouds stored;
  Some {| returned := true;
          response :=
            {| Response.index_to_label_name := getLabelNames (_label_converter self);
               Response.label := result_labels d;
               Response.label_probabilities := result_prob d;
               Response.label_frequencies := frequencies;
               Response.points := res_points |};
          labeler := stored;
          events :=
            EvExtractVoxels :: ev_features ++ ev_forest
              ++ EvInference N (_C self) :: ev_publish |}.

(** [Labeler::label_cloud_plus], lines 227-391. *)
Definition label_cloud_plus (self : Labeler) (req : InstanceRequest.t)
    (res : Response.t) : option Outcome :=
  let srv_request :=
    {| inst_waypoint_id := InstanceRequest.waypoint_id req;
       inst_instance_number := InstanceRequest.instance_number req;
       inst_resolution := Float32.centi |} in
  match call_ObservationInstanceService (_cloud_service self) srv_request with
  | Some srv_response_cloud =>
      let origin_srv_request :=
        {| origin_waypoint_id := InstanceRequest.waypoint_id req |} in
      match call_SensorOriginService (_origin_service self) origin_srv_request with
      | Some origin =>
          let cloud :=
            {| PointCloud.points := cloud_data srv_response_cloud;
               PointCloud.sensor_origin_ :=
                 (origin_x origin, origin_y origin, origin_z origin,
                  Float32.of_int 1) |} in
          let self := set_frame_id self (header_frame_id srv_response_cloud) in
          label_acquired_cloud self req res cloud
      | None =>
          Some {| returned := false; response := res; labeler := self; events := [] |}
      end
  | None =>
      Some {| returned := false; response := res; labeler := self; events := [] |}
  end.

End Model.
End Plus.

(** ** Vocabulary of the statements *)

(** A segment passes the filter when it has at least the configured number
    of points. *)
Definition large_enough (minimum_points : Z) (kv : Z * Voxel) : Prop :=
  getSize kv.2 >= minimum_points.

#[global] Instance large_enough_dec m kv : Decision (large_enough m kv).
Proof. unfold large_enough. apply _. Defined.

(** The segments that pass the filter, as the segmentation delivered them,
    in the order of the map. *)
Definition retained (minimum_points : Z) (voxels : list (Z * Voxel))
    : list (Z * Voxel) :=
  filter (large_enough minimum_points) voxels.

Definition sum_sizes (voxels : list (Z * Voxel)) : Z :=
  foldr (fun kv acc => getSize kv.2 + acc) 0 voxels.

(** The physical point (an index into the voxelized cloud) behind every
    column, in segment-major, point-minor order. *)
Definition column_points (voxels : list (Z * Voxel)) : list Z :=
  voxels ≫= (fun kv => getIndices kv.2).

(** The same order, every column with the segment that owns it. *)
Definition column_owners (voxels : list (Z * Voxel)) : list ((Z * Voxel) * Z) :=
  voxels ≫= (fun kv => (fun i => (kv, i)) <$> getIndices kv.2).

(** The probabilities of all classes at one column, in class order. *)
Definition class_column (C : Z) (map : MatrixXf.t) (j : Z) : list float :=
  (fun c => MatrixXf.coeff map c j) <$> seqZ 0 C.

(** A class attains the maximum of column [j] when no class exceeds it. *)
Definition attains_maximum (map : MatrixXf.t) (j C c : Z) : Prop :=
  0 <= c < C /\
  forall c', 0 <= c' < C ->
    Float32.gtb (MatrixXf.coeff map c' j) (MatrixXf.coeff map c j) = false.

(** What the search for the largest probability knows after the classes
    below [k]. *)
Definition search_invariant (map : MatrixXf.t) (j k : Z) (acc : Z * float) : Prop :=
  0 <= acc.1 < k /\ acc.2 = MatrixXf.coeff map acc.1 j /\
  (forall c, 0 <= c < k -> Float32.gtb (MatrixXf.coeff map c j) acc.2 = false) /\
  (forall c, 0 <= c < acc.1 -> Float32.gtb acc.2 (MatrixXf.coeff map c j) = true).

#[global] Instance PointXYZRGBA_inhabited : Inhabited PointXYZRGBA.t :=
  populate {| PointXYZRGBA.x := Float32.zero; PointXYZRGBA.y := Float32.zero;
              PointXYZRGBA.z := Float32.zero; PointXYZRGBA.r := 0;
              PointXYZRGBA.g := 0; PointXYZRGBA.b := 0; PointXYZRGBA.a := 0 |}.

(** The coordinates of a point, as the response carries them. *)
Definition coordinates (p : PointXYZRGBA.t) : Point32.t :=
  {| Point32.x := PointXYZRGBA.x p;
     Point32.y := PointXYZRGBA.y p;
     Point32.z := PointXYZRGBA.z p |}.

Definition colour (p : PointXYZRGBA.t) : Z * Z * Z :=
  (PointXYZRGBA.r p, PointXYZRGBA.g p, PointXYZRGBA.b p).

Definition recolour (c : Z * Z * Z) (p : PointXYZRGBA.t) : PointXYZRGBA.t :=
  PointXYZRGBA.set_rgb p c.1.1 c.1.2 c.2.

Definition cloud_length (e : string * PointCloud.t) : nat :=
  length (PointCloud.points e.2).

(** The sum of the point counts of all stored observations. *)
Definition stored_point_count (stored : gmap string PointCloud.t) : nat :=
  sum_list_with cloud_length (map_to_list stored).



Definition published (evs : list Event) : list (list PointXYZRGB.t) :=
  omap (fun ev => match ev with
                  | EvPublish fused _ => Some fused
                  | _ => None
                  end) evs.

Section Vocabulary.

Variable W : Collaborators.
Variable self : Labeler.

(** A retained segment after [computeFeatures]. *)
Definition with_features (kv : Z * Voxel) : Z * Voxel :=
  (kv.1, computeFeatures W kv.2).

(** The answer of the forest for a segment. *)
Definition posterior (kv : Z * Voxel) : list float :=
  classLogPosterior (_forest self) (getFeatures kv.2).

(** The colour of the label decoded at a column. *)
Definition label_colour (map : MatrixXf.t) (j : Z) : Z * Z * Z :=
  labelToRgb (_label_converter self) (max_label_of (_C self) map j).

(** The cloud after the columns from [j] on were painted onto the points
    [indices]. *)
Fixpoint paint (map : MatrixXf.t) (j : nat) (indices : list Z)
    (points : list PointXYZRGBA.t) : list PointXYZRGBA.t :=
  match indices with
  | [] => points
  | i :: rest =>
      paint map (S j) rest
            (alter (recolour (label_colour map (Z.of_nat j))) (Z.to_nat i) points)
  end.

(** The per-class sums after the columns [j .. j + n - 1]. *)
Definition summed (map : MatrixXf.t) (freq : list float) (j n : nat) : list float :=
  fold_left
    (fun fr j' => zip_with Float32.add fr (class_column (_C self) map (Z.of_nat j')))
    (seq j n) freq.

(** Lines 133-147: the matrices handed to the dense CRF for the segments
    [kept] and [N] columns. *)
Definition energy_matrices (kept : list (Z * Voxel)) (N : Z) : CrfMats :=
  (build_crf_mats W self kept
     {| unary := MatrixXf.make (_C self) N;
        feature := MatrixXf.make 6 N;
        feature2 := MatrixXf.make 3 N |}
     0
     (get_float (_conf self) "appearance_color_sigma")
     (get_float (_conf self) "appearance_range_sigma")
     (get_float (_conf self) "smoothnes_range_sigma")).1.1.

(** Lines 148-151: the probability matrix that comes back. *)
Definition inferred_map (kept : list (Z * Voxel)) (N : Z) : MatrixXf.t :=
  DenseCRF_inference W N (_C self)
    (unary (energy_matrices kept N)) (feature (energy_matrices kept N))
    (get_float (_conf self) "appearance_weight")
    (feature2 (energy_matrices kept N))
    (get_float (_conf self) "smoothnes_weight")
    (get_int (_conf self) "crf_iterations").

(** The sizes of one request fit the machine: the class count is not negative,
    the retained points and the probability array can be counted in an [int],
    every member index of a retained segment lies in the voxelized cloud, and
    the points of all stored clouds, this one included, can be counted in an
    [int]. *)
Definition request_fits (id : string) (kept : list (Z * Voxel))
    (voxelized_cloud : PointCloud.t) : Prop :=
  0 <= _C self /\
  sum_sizes kept <= int_max /\
  sum_sizes kept * _C self <= int_max /\
  Forall (fun i => 0 <= i < PointCloud.size voxelized_cloud) (column_points kept) /\
  Z.of_nat (stored_point_count
              (<[id := voxelized_cloud]> (_stored_waypoints self))) <= int_max.

(** The response arrays in closed form, for [n] columns of [map]. *)
Definition decoded_labels (map : MatrixXf.t) (n : nat) : list Z :=
  (fun j => max_label_of (_C self) map (Z.of_nat j)) <$> seq 0 n.

Definition decoded_probabilities (map : MatrixXf.t) (n : nat) : list float :=
  seq 0 n ≫= (fun j => class_column (_C self) map (Z.of_nat j)).

Definition decoded_frequencies (map : MatrixXf.t) (n : nat) : list float :=
  (fun f => Float32.div f (Float32.of_int (Z.of_nat n)))
    <$> summed map (replicate (Z.to_nat (_C self)) Float32.zero) 0 n.

Definition retained_coordinates (voxelized_cloud : PointCloud.t)
    (kept : list (Z * Voxel)) : list Point32.t :=
  (fun i => coordinates (PointCloud.points voxelized_cloud !!! Z.to_nat i))
    <$> column_points kept.

(** The cloud that is stored: all points black, then the retained ones in
    the colour of their label. *)
Definition painted_cloud (map : MatrixXf.t) (voxelized_cloud : PointCloud.t)
    (kept : list (Z * Voxel)) : PointCloud.t :=
  PointCloud.with_points voxelized_cloud
    (paint map 0 (column_points kept)
           (paint_black (PointCloud.points voxelized_cloud))).

(** Lines 75-81: the cloud that the handler builds from the two answers. *)
Definition acquired_cloud (msg : PointCloud2) (origin : SensorOrigin) : PointCloud.t :=
  {| PointCloud.points := cloud_data msg;
     PointCloud.sensor_origin_ :=
       (origin_x origin, origin_y origin, origin_z origin, Float32.of_int 1) |}.

(** Both acquisitions of [label_cloud] succeed with [msg] and [origin], and
    the segmentation of the converted cloud delivers [voxels] and
    [voxelized_cloud]. *)
Definition acquisition (req : Request) (msg : PointCloud2) (origin : SensorOrigin)
    (voxels : list (Z * Voxel)) (voxelized_cloud : PointCloud.t) : Prop :=
  call_ObservationService (_cloud_service self)
    {| obs_waypoint_id := waypoint_id req; obs_resolution := Float32.centi |}
    = Some msg /\
  call_SensorOriginService (_origin_service self)
    {| origin_waypoint_id := waypoint_id req |} = Some origin /\
  extractVoxels (_dl self) (convert_to_lab W (acquired_cloud msg origin))
    = (voxels, voxelized_cloud).

(** What [label_cloud] leaves behind after a request that went through. *)
Definition success (req : Request) (msg : PointCloud2)
    (voxels : list (Z * Voxel)) (voxelized_cloud : PointCloud.t) : Outcome :=
  let kept0 := retained (_minimum_points self) voxels in
  let kept := with_features <$> kept0 in
  let n := length (column_points kept0) in
  let map := inferred_map kept (Z.of_nat n) in
  let stored :=
    store_waypoint (set_frame_id self (header_frame_id msg)) (waypoint_id req)
                   (painted_cloud map voxelized_cloud kept0) in
  {| returned := true;
     response :=
       {| Response.index_to_label_name := getLabelNames (_label_converter self);
          Response.label := decoded_labels map n;
          Response.label_probabilities := decoded_probabilities map n;
          Response.label_frequencies := decoded_frequencies map n;
          Response.points := retained_coordinates voxelized_cloud kept0 |};
     labeler := stored;
     events :=
       EvExtractVoxels
         :: ((fun kv => EvComputeFeatures kv.1) <$> kept0)
         ++ ((fun kv => EvClassLogPosterior kv.1 (getFeatures kv.2)) <$> kept)
         ++ [EvInference (Z.of_nat n) (_C self);
             EvPublish (fuse (stored_clouds stored)) (header_frame_id msg)] |}.

(** The same labeler behind a segmentation that never delivers the segments
    below the threshold. *)
Definition without_small_segments : Labeler :=
  {| _conf := _conf self;
     _dl :=
       {| getLabelConverter := getLabelConverter (_dl self);
          extractVoxels := fun cloud =>
            (retained (_minimum_points self) (extractVoxels (_dl self) cloud).1,
             (extractVoxels (_dl self) cloud).2) |};
     _label_converter := _label_converter self; _forest := _forest self;
     _C := _C self; _minimum_points := _minimum_points self;
     _cloud_service := _cloud_service self;
     _origin_service := _origin_service self;
     _stored_waypoints := _stored_waypoints self;
     _frame_id := _frame_id self |}.

(** A sequence of store operations, first to last. *)
Definition store_all (ops : list (string * PointCloud.t)) : Labeler :=
  foldl (fun s op => store_waypoint s op.1 op.2) self ops.

#[global] Instance request_fits_dec id kept voxelized_cloud :
  Decision (request_fits id kept voxelized_cloud).
Proof. unfold request_fits. apply _. Defined.

(** A call of one of the two services. *)
Inductive Call :=
  | PlainCall (req : Request)
  | InstanceCall (req : InstanceRequest.t).

Definition handle (call : Call) (res : Response.t) : option Outcome :=
  match call with
  | PlainCall req => label_cloud W self req res
  | InstanceCall req => Plus.label_cloud_plus W self req res
  end.

(** The answer of the cloud service to the request that the handler sends. *)
Definition cloud_acquisition (call : Call) : option PointCloud2 :=
  match call with
  | PlainCall req =>
      call_ObservationService (_cloud_service self)
        {| obs_waypoint_id := waypoint_id req; obs_resolution := Float32.centi |}
  | InstanceCall req =>
      call_ObservationInstanceService (_cloud_service self)
        {| inst_waypoint_id := InstanceRequest.waypoint_id req;
           inst_instance_number := InstanceRequest.instance_number req;
           inst_resolution := Float32.centi |}
  end.

Definition call_waypoint_id (call : Call) : string :=
  match call with
  | PlainCall req => waypoint_id req
  | InstanceCall req => InstanceRequest.waypoint_id req
  end.

(** The answer of the origin service to the request that the handler sends. *)
Definition origin_acquisition (call : Call) : option SensorOrigin :=
  call_SensorOriginService (_origin_service self)
    {| origin_waypoint_id := call_waypoint_id call |}.

(** What a handler leaves behind when it gives up. *)
Definition failure (res : Response.t) : Outcome :=
  {| returned := false; response := res; labeler := self; events := [] |}.

End Vocabulary.

(** ** The constructor, [main] and the two services *)

(** Modelled from the spec: what the process finds when it starts.  The
    classes [Utils::Config] and [Utils::DataLoader] are not among the
    sources; a configuration that is missing or invalid stops the process.
    [Config_load] stands for [Utils::Config(config_file, _)] together with
    the read of ["min_point_count"], and [DataLoader_make] for
    [Utils::DataLoader(_conf, false)] with its label converter; each is
    [None] when it throws.  [forest_read] is the forest read from its file,
    [None] when [fb.open] fails. *)
Record Startup := {
  Config_load : string -> option Config;
  DataLoader_make : Config -> option DataLoader;
  forest_read : string -> option RandomForest }.

(** The end of a constructor call: the object, or an exception: the
    [std::runtime_error] of line 54, or what a member initialiser of lines
    39-43 throws, taken to derive from [std::exception]. *)
Inductive Construction :=
  | Constructed (labeler : Labeler)
  | Threw.

(** [Labeler::Labeler], lines 38-57: the member initialisers in the order
    of the members, then the body. *)
Definition Labeler_constructor (env : Startup) (config_file forest_file : string)
    (cloud_service origin_service : ServiceClient) : Construction :=
  match Config_load env config_file with
  | None => Threw
  | Some conf =>
      match DataLoader_make env conf with
      | None => Threw
      | Some dl =>
          match forest_read env forest_file with
          | Some forest =>
              Constructed (Labeler_new conf dl forest cloud_service origin_service)
          | None => Threw
          end
      end
  end.

(** The two labelers that [main] creates and hands to the services. *)
Module Node.
Record t := { l1 : Labeler; l2 : Labeler }.
End Node.

(** [main] until it spins: it has returned a code, or the two services are
    advertised. *)
Inductive MainResult :=
  | Exit (code : Z)
  | Spinning (node : Node.t).

(** [main], lines 441-482, on the [argv] that [ros::init] leaves, with
    [argc = length argv].  With [argc = 2] the check of line 445 passes and
    [argv[2]] is the null pointer that ends the arguments: the [std::string]
    of the forest path is built from it inside the [try] block, where
    libstdc++ throws [std::logic_error], and the handler of line 467
    returns 1. *)
Definition main (env : Startup)
    (client_get_cloud_plus client_get_cloud client_cloud_origin : ServiceClient)
    (argv : list string) : option MainResult :=
  let argc := Z.of_nat (length argv) in
  if decide (argc < 2) then Some (Exit 1)
  else
    config_file ← argv !! 1%nat;
    match argv !! 2%nat with
    | None => Some (Exit 1)
    | Some forest_file =>
        match Labeler_constructor env config_file forest_file
                                  client_get_cloud_plus client_cloud_origin with
        | Threw => Some (Exit 1)
        | Constructed l2 =>
            match Labeler_constructor env config_file forest_file
                                      client_get_cloud client_cloud_origin with
            | Threw => Some (Exit 1)
            | Constructed l1 => Some (Spinning {| Node.l1 := l1; Node.l2 := l2 |})
            end
        end
    end.

(** Lines 473-479: one service call while [main] spins.
    ["label_integrated_cloud"] runs [label_cloud] on [l1],
    ["label_integrated_cloud_plus"] runs [label_cloud_plus] on [l2]. *)
Definition serve (W : Collaborators) (node : Node.t) (call : Call)
    (res : Response.t) : option (Outcome * Node.t) :=
  match call with
  | PlainCall req =>
      out ← label_cloud W (Node.l1 node) req res;
      Some (out, {| Node.l1 := labeler out; Node.l2 := Node.l2 node |})
  | InstanceCall req =>
      out ← Plus.label_cloud_plus W (Node.l2 node) req res;
      Some (out, {| Node.l1 := Node.l1 node; Node.l2 := labeler out |})
  end.

(** ** Further vocabulary *)

(** The sum of the probabilities of class [c] over the columns [0 .. n-1],
    added up in column order as the decoding loop does. *)
Definition class_total (map : MatrixXf.t) (c : Z) (n : nat) : float :=
  fold_left (fun total j => Float32.add total (MatrixXf.coeff map c (Z.of_nat j)))
            (seq 0 n) Float32.zero.

(** Both acquisitions of [label_cloud_plus] succeed with [msg] and [origin],
    and the segmentation of the converted cloud delivers [voxels] and
    [voxelized_cloud]. *)
Definition instance_acquisition (W : Collaborators) (self : Labeler)
    (req : InstanceRequest.t) (msg : PointCloud2) (origin : SensorOrigin)
    (voxels : list (Z * Voxel)) (voxelized_cloud : PointCloud.t) : Prop :=
  call_ObservationInstanceService (_cloud_service self)
    {| inst_waypoint_id := InstanceRequest.waypoint_id req;
       inst_instance_number := InstanceRequest.instance_number req;
       inst_resolution := Float32.centi |} = Some msg /\
  call_SensorOriginService (_origin_service self)
    {| origin_waypoint_id := InstanceRequest.waypoint_id req |} = Some origin /\
  extractVoxels (_dl self) (Plus.convert_to_lab W (acquired_cloud msg origin))
    = (voxels, voxelized_cloud).

(** The plain request for the waypoint of an instance request. *)
Definition waypoint_of (req : InstanceRequest.t) : Request :=
  {| waypoint_id := InstanceRequest.waypoint_id req |}.

(** A cloud with every point black. *)
Definition all_black (cloud : PointCloud.t) : PointCloud.t :=
  PointCloud.with_points cloud (paint_black (PointCloud.points cloud)).

(** An index that is no position of the cloud. *)
Definition outside (cloud : PointCloud.t) (i : Z) : Prop :=
  ~ (0 <= i < PointCloud.size cloud).

(** The same labeler behind another client of the cloud service. *)
Definition with_cloud_service (self : Labeler) (cloud_service : ServiceClient)
    : Labeler :=
  {| _conf := _conf self; _dl := _dl self;
     _label_converter := _label_converter self; _forest := _forest self;
     _C := _C self; _minimum_points := _minimum_points self;
     _cloud_service := cloud_service;
     _origin_service := _origin_service self;
     _stored_waypoints := _stored_waypoints self;
     _frame_id := _frame_id self |}.

(** An outcome, with its labeler put behind another client of the cloud
    service. *)
Definition behind (cloud_service : ServiceClient) (out : Outcome) : Outcome :=
  {| returned := returned out;
     response := response out;
     labeler := with_cloud_service (labeler out) cloud_service;
     events := events out |}.

(** The identifier of the first entry lies strictly before the second. *)
Definition key_below (e1 e2 : string * PointCloud.t) : Prop :=
  String.ltb e1.1 e2.1 = true.

(** ** A small world to run the handlers in

    Three classes and a threshold of three points.  The segmentation cuts a
    cloud of seven or more points into segment 1 (points 0 to 4) and
    segment 2 (points 5 and 6), and a smaller cloud into the single
    segment 1 (points 0 and 1).
    The features of a segment are its indices as floats; the forest answers
    [1/2, 1/4, 1/4] for five features and [1/4, 1/4, 1/2] otherwise; the
    inference returns its unary matrix. *)
Module Scenario.

Definition half : float := Float32.div (Float32.of_int 1) (Float32.of_int 2).
Definition quarter : float := Float32.div (Float32.of_int 1) (Float32.of_int 4).

Definition world : Collaborators :=
  {| cvtColor_BGR2Lab := fun px => px;
     feature_extraction := fun v => Float32.of_int <$> voxel_indices v;
     appearance_column := fun _ _ _ _ => replicate 6 Float32.zero;
     smoothness_column := fun _ _ _ => replicate 3 Float32.zero;
     DenseCRF_inference := fun N C unary _ _ _ _ _ =>
       {| MatrixXf.rows := C; MatrixXf.cols := N;
          MatrixXf.coeff := MatrixXf.coeff unary |} |}.

Definition conf : Config :=
  {| get_float := fun _ => Float32.of_int 1;
     get_int := fun name =>
       if String.eqb name "min_point_count" then 3 else 5 |}.

Definition label_converter : RgbLabelConversion :=
  {| getValidLabelCount := 3;
     getLabelNames := ["wall"; "floor"; "chair"]%string;
     labelToRgb := fun l => (l + 1, 10 * (l + 1), 100) |}.

Definition segment (indices : list Z) : Voxel :=
  {| voxel_indices := indices; voxel_features := [];
     voxel_features_computed := false |}.

Definition dl : DataLoader :=
  {| getLabelConverter := label_converter;
     extractVoxels := fun cloud =>
       (if decide (7 <= PointCloud.size cloud) then
          [(1, segment [0; 1; 2; 3; 4]); (2, segment [5; 6])]
        else [(1, segment [0; 1])],
        cloud) |}.

Definition forest : RandomForest :=
  {| classLogPosterior := fun feat =>
       if decide (length feat = 5%nat) then [half; quarter; quarter]
       else [quarter; quarter; half] |}.

Definition point (k : Z) : PointXYZRGBA.t :=
  {| PointXYZRGBA.x := Float32.of_int k;
     PointXYZRGBA.y := Float32.of_int (2 * k);
     PointXYZRGBA.z := Float32.of_int (3 * k);
     PointXYZRGBA.r := 200; PointXYZRGBA.g := 100; PointXYZRGBA.b := 50;
     PointXYZRGBA.a := 255 |}.

Definition cloud_of (n : Z) : PointCloud2 :=
  {| header_frame_id := "map"; cloud_data := point <$> seqZ 0 n |}.

(** Waypoint ["A"] has seven points and ["B"] two; ["C"] has a cloud but no
    origin, and every other waypoint is unknown. *)
Definition observation (id : string) (instance : Z) : option PointCloud2 :=
  if String.eqb id "A" then Some (cloud_of 7)
  else if String.eqb id "B" then Some (cloud_of 2)
  else if String.eqb id "C" then Some (cloud_of 7)
  else None.

Definition origin : SensorOrigin :=
  {| origin_x := Float32.zero; origin_y := Float32.zero;
     origin_z := Float32.of_int 1 |}.

Definition client : ServiceClient :=
  {| call_ObservationService := fun rq => observation (obs_waypoint_id rq) 0;
     call_ObservationInstanceService := fun rq =>
       observation (inst_waypoint_id rq) (inst_instance_number rq);
     call_SensorOriginService := fun rq =>
       if String.eqb (origin_waypoint_id rq) "C" then None else Some origin |}.

Definition l1 : Labeler := Labeler_new conf dl forest client client.

(** The requests for the waypoints ["A"] and ["B"], and what the
    segmentation makes of their clouds. *)
Definition reqA : Request := {| waypoint_id := "A" |}.
Definition reqB : Request := {| waypoint_id := "B" |}.

Definition voxelsA : list (Z * Voxel) :=
  [(1, segment [0; 1; 2; 3; 4]); (2, segment [5; 6])].
Definition voxelizedA : PointCloud.t := acquired_cloud (cloud_of 7) origin.

Definition voxelsB : list (Z * Voxel) := [(1, segment [0; 1])].
Definition voxelizedB : PointCloud.t := acquired_cloud (cloud_of 2) origin.

(** A cloud of [n] points for the map store. *)
Definition observation_of (n : Z) : PointCloud.t :=
  acquired_cloud (cloud_of n) origin.

(** A column with a tie: the classes 1 and 2 share the maximum. *)
Definition tie_map : MatrixXf.t :=
  {| MatrixXf.rows := 3; MatrixXf.cols := 1;
     MatrixXf.coeff := fun c _ =>
       if decide (c = 0) then quarter else half |}.

End Scenario.

(** ** More situations in the small world

    Columns with a NaN, for class 0 and for class 1; a response object that
    is not empty; a client of the plain cloud service only and a client of
    the instance service only, which knows two instances of waypoint ["A"],
    the first with seven points and the others with two; a segmentation
    whose segments name the points out of order, with a forest that tells
    them apart; a segmentation that names a point outside of the cloud; and
    a process with its arguments, where only ["config.json"] can be loaded
    and only ["rf.dat"] can be opened. *)
Module Edge.

Definition nan_map : MatrixXf.t :=
  {| MatrixXf.rows := 3; MatrixXf.cols := 1;
     MatrixXf.coeff := fun c _ =>
       if decide (c = 0) then S754_nan else Scenario.half |}.

Definition nan_later_map : MatrixXf.t :=
  {| MatrixXf.rows := 3; MatrixXf.cols := 1;
     MatrixXf.coeff := fun c _ =>
       if decide (c = 1) then S754_nan
       else if decide (c = 2) then Scenario.half else Scenario.quarter |}.

(** The plain service only: instance requests are not answered. *)
Definition plain_client : ServiceClient :=
  {| call_ObservationService := fun rq => Scenario.observation (obs_waypoint_id rq) 0;
     call_ObservationInstanceService := fun _ => None;
     call_SensorOriginService := fun _ => Some Scenario.origin |}.

Definition l1 : Labeler :=
  Labeler_new Scenario.conf Scenario.dl Scenario.forest plain_client plain_client.





Definition stale_response : Response.t :=
  {| Response.index_to_label_name := ["old"]%string;
     Response.label := [7; 7];
     Response.label_probabilities := [Scenario.half];
     Response.label_frequencies := [Scenario.half];
     Response.points := replicate 9 Point32.zero |}.

Definition instance_client : ServiceClient :=
  {| call_ObservationService := fun _ => None;
     call_ObservationInstanceService := fun rq =>
       if decide (inst_instance_number rq = 0) then Some (Scenario.cloud_of 7)
       else Some (Scenario.cloud_of 2);
     call_SensorOriginService := fun _ => Some Scenario.origin |}.

Definition l2 : Labeler :=
  Labeler_new Scenario.conf Scenario.dl Scenario.forest
              instance_client instance_client.

Definition first_instance : InstanceRequest.t :=
  {| InstanceRequest.waypoint_id := "A"; InstanceRequest.instance_number := 0 |}.
Definition second_instance : InstanceRequest.t :=
  {| InstanceRequest.waypoint_id := "A"; InstanceRequest.instance_number := 1 |}.

Definition careless_dl : DataLoader :=
  {| getLabelConverter := Scenario.label_converter;
     extractVoxels := fun cloud => ([(1, Scenario.segment [0; 1; 9])], cloud) |}.

Definition careless : Labeler :=
  Labeler_new Scenario.conf careless_dl Scenario.forest
              Scenario.client Scenario.client.

Definition startup : Startup :=
  {| Config_load := fun config_file =>
       if String.eqb config_file "config.json" then Some Scenario.conf else None;
     DataLoader_make := fun _ => Some Scenario.dl;
     forest_read := fun forest_file =>
       if String.eqb forest_file "rf.dat" then Some Scenario.forest else None |}.

Definition argv : list string := ["node"; "config.json"; "rf.dat"]%string.

Definition node : Node.t :=
  {| Node.l1 := Scenario.l1; Node.l2 := Scenario.l1 |}.

Definition reqpB : InstanceRequest.t :=
  {| InstanceRequest.waypoint_id := "B"; InstanceRequest.instance_number := 1 |}.

End Edge.

(** * Properties *)

(** ** The order of binary32 values *)

Lemma gtb_irrefl (x : float) : Float32.gtb x x = false.
Proof.
  unfold Float32.gtb.
  destruct x as [[]|[]| |[] m e]; simpl; try reflexivity;
    rewrite Z.compare_refl;
    change (Pos.compare_cont Eq m m) with (Pos.compare m m);
    rewrite Pos.compare_refl; reflexivity.
Qed.

Ltac float_order :=
  repeat match goal with
  | |- context [Z.compare ?a ?b] => destruct (Z.compare_spec a b)
  | H : context [Z.compare ?a ?b] |- _ => destruct (Z.compare_spec a b)
  | |- context [Pos.compare ?a ?b] => destruct (Pos.compare_spec a b)
  | H : context [Pos.compare ?a ?b] |- _ => destruct (Pos.compare_spec a b)
  end; simpl in *; try discriminate; try reflexivity; try lia.

Lemma gtb_le_lt_trans (x p k : float) :
  Float32.is_nan x = false -> Float32.is_nan p = false ->
  Float32.is_nan k = false ->
  Float32.gtb x p = false -> Float32.gtb k p = true ->
  Float32.gtb k x = true /\ Float32.gtb x k = false.
Proof.
  unfold Float32.gtb.
  destruct x as [[]|[]| |[] mx ex]; try discriminate;
  destruct p as [[]|[]| |[] mp ep]; try discriminate;
  destruct k as [[]|[]| |[] mk ek]; try discriminate;
  simpl; intros _ _ _;
  change (Pos.compare_cont Eq) with Pos.compare;
  intros H1 H2; try discriminate; try (split; reflexivity);
  float_order.
Qed.

(** ** The label decoder *)

Section Decoder.

Variables (map : MatrixXf.t) (j : Z).

Abbreviation prob c := (MatrixXf.coeff map c j).

Lemma max_label_step_invariant (k : Z) (acc : Z * float) :
  1 <= k ->
  (forall c, 0 <= c <= k -> Float32.is_nan (prob c) = false) ->
  search_invariant map j k acc ->
  search_invariant map j (k + 1) (max_label_step map j acc k).
Proof.
  intros Hk Hnan (Hl & Hp & Hmax & Hlow).
  unfold max_label_step.
  destruct (Float32.gtb (prob k) acc.2) eqn:Hgt.
  - assert (Hbelow : forall c, 0 <= c < k ->
        Float32.gtb (prob k) (prob c) = true /\
        Float32.gtb (prob c) (prob k) = false).
    { intros c Hc.
      apply (gtb_le_lt_trans (prob c) acc.2 (prob k));
        [apply Hnan; lia | rewrite Hp; apply Hnan; lia | apply Hnan; lia
        | apply Hmax; lia | exact Hgt]. }
    repeat split; simpl; try lia.
    + intros c Hc. destruct (decide (c = k)) as [->|Hne].
      * apply gtb_irrefl.
      * apply Hbelow; lia.
    + intros c Hc. apply Hbelow; lia.
  - repeat split; try lia; auto.
    intros c Hc. destruct (decide (c = k)) as [->|Hne]; auto.
    apply Hmax; lia.
Qed.

Lemma max_label_search_invariant (n : nat) (k : Z) (acc : Z * float) :
  1 <= k ->
  (forall c, 0 <= c < k + Z.of_nat n -> Float32.is_nan (prob c) = false) ->
  search_invariant map j k acc ->
  search_invariant map j (k + Z.of_nat n)
    (fold_left (max_label_step map j) (seqZ k (Z.of_nat n)) acc).
Proof.
  revert k acc. induction n as [|n IH]; intros k acc Hk Hnan Hinv.
  - replace (k + Z.of_nat 0) with k by lia. exact Hinv.
  - rewrite seqZ_cons by lia. simpl fold_left.
    replace (Z.pred (Z.of_nat (S n))) with (Z.of_nat n) by lia.
    replace (k + Z.of_nat (S n)) with (Z.succ k + Z.of_nat n) by lia.
    apply IH; [lia | intros; apply Hnan; lia |].
    replace (Z.succ k) with (k + 1) by lia.
    apply max_label_step_invariant; auto. intros; apply Hnan; lia.
Qed.

Lemma max_label_of_invariant (C : Z) :
  0 < C ->
  (forall c, 0 <= c < C -> Float32.is_nan (prob c) = false) ->
  let l := max_label_of C map j in
  0 <= l < C /\
  (forall c, 0 <= c < C -> Float32.gtb (prob c) (prob l) = false) /\
  (forall c, 0 <= c < l -> Float32.gtb (prob l) (prob c) = true).
Proof.
  intros HC Hnan. unfold max_label_of.
  pose proof (max_label_search_invariant (Z.to_nat (C - 1)) 1 (0, prob 0)) as H.
  rewrite Z2Nat.id in H by lia.
  replace (1 + (C - 1)) with C in H by lia.
  assert (Hinit : search_invariant map j 1 (0, prob 0)).
  { repeat split; simpl; try lia.
    intros c Hc. replace c with 0 by lia. apply gtb_irrefl. }
  destruct (H ltac:(lia) Hnan Hinit) as (Hl & Hp & Hmax & Hlow).
  cbv zeta. rewrite <- Hp. auto.
Qed.

(** C3: the decoded hard label of column [j] is the lowest class index, among
    [0 .. C-1], that attains the maximum of the column; with several classes
    at the maximum the smallest index wins.  The column holds numbers (no
    NaN) and there is at least one class. *)
Theorem max_label_of_is_lowest_argmax (C : Z) :
  0 < C ->
  (forall c, 0 <= c < C -> Float32.is_nan (prob c) = false) ->
  attains_maximum map j C (max_label_of C map j) /\
  forall c, attains_maximum map j C c -> max_label_of C map j <= c.
Proof.
  intros HC Hnan.
  destruct (max_label_of_invariant C HC Hnan) as (Hl & Hmax & Hlow).
  split; [split; assumption|].
  intros c [Hc Hcmax].
  destruct (decide (max_label_of C map j <= c)) as [|Hlt]; [assumption|].
  specialize (Hlow c ltac:(lia)). specialize (Hcmax _ Hl). congruence.
Qed.

End Decoder.

(** ** Machine integers and vectors *)

Lemma wrap_int_small (z : Z) : - 2 ^ 31 <= z <= int_max -> wrap_int z = z.
Proof.
  unfold wrap_int, int_max. intros H.
  rewrite Z.mod_small by lia. lia.
Qed.

Lemma wrap_uint_small (z : Z) : 0 <= z < 2 ^ 32 -> wrap_uint z = z.
Proof. unfold wrap_uint. intros H. apply Z.mod_small. lia. Qed.

Lemma vector_get_nat {A} (v : list A) (k : nat) :
  vector_get v (Z.of_nat k) = v !! k.
Proof.
  unfold vector_get. rewrite decide_True by lia. by rewrite Nat2Z.id.
Qed.

Lemma vector_update_nat {A} (v : list A) (k : nat) (f : A -> A) (x : A) :
  v !! k = Some x ->
  vector_update v (Z.of_nat k) f = Some (<[k := f x]> v).
Proof.
  intros Hx. unfold vector_update. rewrite vector_get_nat, Hx. simpl.
  by rewrite Nat2Z.id.
Qed.

Lemma vector_set_nat {A} (v : list A) (k : nat) (x : A) :
  (k < length v)%nat ->
  vector_set v (Z.of_nat k) x = Some (<[k := x]> v).
Proof.
  intros Hk. destruct (lookup_lt_is_Some_2 v k Hk) as [y Hy].
  unfold vector_set. by rewrite (vector_update_nat _ _ _ y).
Qed.

Lemma vector_update_Z {A} (v : list A) (i : Z) (f : A -> A) (x : A) :
  0 <= i -> v !! Z.to_nat i = Some x ->
  vector_update v i f = Some (<[Z.to_nat i := f x]> v).
Proof.
  intros Hi Hx. unfold vector_update, vector_get.
  rewrite decide_True by lia. by rewrite Hx.
Qed.

Lemma insert_as_alter {A} (l : list A) (i : nat) (f : A -> A) (x : A) :
  l !! i = Some x -> <[i := f x]> l = alter f i l.
Proof.
  revert i. induction l as [|y l IH]; intros [|i] Hx; simpl in *; try done.
  - by injection Hx as ->.
  - f_equal. by apply IH.
Qed.

Lemma vector_new_nat {A} (n : nat) (x : A) :
  vector_new (Z.of_nat n) x = Some (replicate n x).
Proof.
  unfold vector_new. rewrite decide_True by lia. by rewrite Nat2Z.id.
Qed.

(** ** Loops *)

Lemma for_each_cons {A S} (body : S -> A -> option S) (x : A) (l : list A) (s : S) :
  for_each body (x :: l) s = body s x ≫= for_each body l.
Proof. reflexivity. Qed.

Lemma for_each_app {A S} (body : S -> A -> option S) (l1 l2 : list A) (s : S) :
  for_each body (l1 ++ l2) s = for_each body l1 s ≫= for_each body l2.
Proof.
  revert s. induction l1 as [|x l1 IH]; intros s; simpl; [done|].
  destruct (body s x) as [s'|]; simpl; [apply IH | done].
Qed.

(** A loop over the members of every segment is a loop over all members in
    segment-major order. *)
Lemma for_each_nested {A B S} (body : S -> B -> option S) (g : A -> list B)
    (l : list A) (s : S) :
  for_each (fun s x => for_each body (g x) s) l s = for_each body (l ≫= g) s.
Proof.
  revert s. induction l as [|x l IH]; intros s; simpl; [done|].
  rewrite for_each_app.
  destruct (for_each body (g x) s) as [s'|]; simpl; [apply IH | done].
Qed.

(** ** The segment filter *)

Section Filter.

Variable W : Collaborators.

Lemma sum_sizes_nonneg voxels : 0 <= sum_sizes voxels.
Proof.
  induction voxels as [|kv l IH]; simpl; [lia|]. unfold getSize. lia.
Qed.

Lemma sum_sizes_column_points voxels :
  sum_sizes voxels = Z.of_nat (length (column_points voxels)).
Proof.
  unfold column_points.
  induction voxels as [|kv l IH]; [done|].
  rewrite bind_cons, length_app, Nat2Z.inj_add, <- IH. reflexivity.
Qed.

Lemma column_points_with_features voxels :
  column_points (with_features W <$> voxels) = column_points voxels.
Proof.
  unfold column_points. induction voxels as [|kv l IH]; [done|].
  by rewrite fmap_cons, !bind_cons, IH.
Qed.


Lemma filter_voxels_retained minimum_points voxels N0 :
  0 <= N0 ->
  N0 + sum_sizes (retained minimum_points voxels) <= int_max ->
  filter_voxels W minimum_points voxels N0 =
    (N0 + sum_sizes (retained minimum_points voxels),
     with_features W <$> retained minimum_points voxels,
     (fun kv => EvComputeFeatures kv.1) <$> retained minimum_points voxels).
Proof.
  unfold retained.
  revert N0. induction voxels as [|[id v] l IH]; intros N0 H0 Hfit.
  - simpl. by rewrite Z.add_0_r.
  - rewrite filter_cons in *. simpl filter_voxels.
    destruct (decide (getSize v >= minimum_points)) as [Hge|Hlt].
    + rewrite decide_True in * by exact Hge. simpl in Hfit.
      pose proof (sum_sizes_nonneg (filter (large_enough minimum_points) l)).
      assert (0 <= getSize v) by (unfold getSize; lia).
      rewrite wrap_int_small by (unfold int_max in *; lia).
      rewrite IH by lia. simpl. by rewrite Z.add_assoc.
    + rewrite decide_False in * by exact Hlt. by rewrite IH.
Qed.

End Filter.

(** ** The energy matrices *)

Section EnergyMatrices.

Variable W : Collaborators.
Variable self : Labeler.
Variables acs ars srs : float.

Lemma addDataToCrfMats_columns (v : Voxel) (probs : list float)
    (ks : list nat) (mats : CrfMats) (index : Z) :
  0 <= index -> index + Z.of_nat (length ks) < 2 ^ 32 ->
  let r :=
    fold_left
      (fun '(m, index) k =>
         ({| unary := MatrixXf.set_col (unary m) index probs;
             feature := MatrixXf.set_col (feature m) index
                          (appearance_column W v k acs ars);
             feature2 := MatrixXf.set_col (feature2 m) index
                           (smoothness_column W v k srs) |},
          wrap_uint (index + 1)))
      ks (mats, index) in
  r.2 = index + Z.of_nat (length ks) /\
  forall c j,
    MatrixXf.coeff (unary r.1) c j =
      if decide (index <= j < index + Z.of_nat (length ks)) then
        match vector_get probs c with
        | Some x => x
        | None => MatrixXf.coeff (unary mats) c j
        end
      else MatrixXf.coeff (unary mats) c j.
Proof.
  revert mats index. induction ks as [|k ks IH]; intros mats index H0 Hfit.
  - simpl. split; [lia|]. intros c j. by rewrite decide_False by lia.
  - simpl fold_left. simpl length in *.
    rewrite wrap_uint_small by lia.
    match goal with
    | |- context [fold_left _ ks (?m, _)] =>
        destruct (IH m (index + 1)) as [Hidx Hcoeff]; [lia | lia |]
    end.
    cbv zeta. split; [rewrite Hidx; lia|].
    intros c j. rewrite Hcoeff. simpl.
    repeat case_decide; try lia; try reflexivity.
    all: destruct (vector_get probs c); reflexivity.
Qed.

Lemma addDataToCrfMats_spec (v : Voxel) (probs : list float)
    (mats : CrfMats) (index : Z) :
  0 <= index -> index + getSize v < 2 ^ 32 ->
  let r := addDataToCrfMats W v mats index probs acs ars srs in
  r.2 = index + getSize v /\
  forall c j,
    MatrixXf.coeff (unary r.1) c j =
      if decide (index <= j < index + getSize v) then
        match vector_get probs c with
        | Some x => x
        | None => MatrixXf.coeff (unary mats) c j
        end
      else MatrixXf.coeff (unary mats) c j.
Proof.
  intros H0 Hfit. unfold addDataToCrfMats, getSize in *.
  pose proof (addDataToCrfMats_columns v probs
                (seq 0 (length (voxel_indices v))) mats index) as H.
  rewrite length_seq in H. apply H; assumption.
Qed.

Lemma build_crf_mats_spec (voxels : list (Z * Voxel)) (mats : CrfMats) (p0 : Z) :
  0 <= p0 -> p0 + sum_sizes voxels < 2 ^ 32 ->
  let r := build_crf_mats W self voxels mats p0 acs ars srs in
  r.1.2 = p0 + sum_sizes voxels /\
  r.2 = (fun kv => EvClassLogPosterior kv.1 (getFeatures kv.2)) <$> voxels /\
  (forall c j, j < p0 ->
     MatrixXf.coeff (unary r.1.1) c j = MatrixXf.coeff (unary mats) c j) /\
  (forall (j : nat) kv i c x,
     column_owners voxels !! j = Some (kv, i) ->
     vector_get (posterior self kv) c = Some x ->
     MatrixXf.coeff (unary r.1.1) c (p0 + Z.of_nat j) = x).
Proof.
  revert mats p0. induction voxels as [|[id v] l IH]; intros mats p0 H0 Hfit.
  - simpl. repeat split; try lia; try done.
  - simpl in Hfit. pose proof (sum_sizes_nonneg l) as Hl.
    assert (0 <= getSize v) as Hv by (unfold getSize; lia).
    simpl build_crf_mats.
    destruct (addDataToCrfMats_spec v (classLogPosterior (_forest self) (getFeatures v))
                mats p0 H0 ltac:(lia)) as [Hidx Hcoeff].
    destruct (addDataToCrfMats W v mats p0 _ acs ars srs) as [mats1 p1].
    simpl in Hidx, Hcoeff. subst p1.
    destruct (IH mats1 (p0 + getSize v) ltac:(lia) ltac:(lia))
      as (Hp & Hev & Hbelow & Hown).
    destruct (build_crf_mats W self l mats1 (p0 + getSize v) acs ars srs)
      as [[mats2 p2] evs].
    simpl in Hp, Hev, Hbelow, Hown. cbv zeta. simpl.
    split; [lia|]. split; [by rewrite Hev|]. split.
    + intros c j Hj. rewrite Hbelow by lia. rewrite Hcoeff.
      by rewrite decide_False by lia.
    + intros j kv i c x Hj Hx.
      destruct (decide (j < length (getIndices v))%nat) as [Hlt|Hge].
      * rewrite lookup_app_l in Hj by (by rewrite length_fmap).
        rewrite list_lookup_fmap in Hj.
        destruct (getIndices v !! j) as [i'|] eqn:Hi; [|done].
        simpl in Hj. injection Hj as <- <-.
        rewrite Hbelow by (unfold getSize, getIndices in *; lia).
        rewrite Hcoeff.
        rewrite decide_True by (unfold getSize, getIndices in *; lia).
        unfold posterior in Hx. simpl in Hx. by rewrite Hx.
      * rewrite lookup_app_r in Hj by (rewrite length_fmap; lia).
        rewrite length_fmap in Hj.
        specialize (Hown _ _ _ _ _ Hj Hx).
        rewrite <- Hown. f_equal. unfold getSize, getIndices in *. lia.
Qed.

End EnergyMatrices.

(** ** The label decoder, point by point *)

Section Decoding.

Variable self : Labeler.
Variable map : MatrixXf.t.

Lemma prob_step_spec (p : Z) (Q : list float) (r : float) (rest FQ : list float)
    (f0 : float) (frest : list float) :
  Z.of_nat (length Q) + 1 <= int_max ->
  let v := MatrixXf.coeff map (Z.of_nat (length FQ)) p in
  prob_step map p (Q ++ r :: rest, FQ ++ f0 :: frest, Z.of_nat (length Q))
            (Z.of_nat (length FQ)) =
    Some ((Q ++ [v]) ++ rest, (FQ ++ [Float32.add f0 v]) ++ frest,
          Z.of_nat (length (Q ++ [v]))).
Proof.
  intros Hfit v. unfold prob_step.
  rewrite vector_set_nat by (rewrite length_app; simpl; lia).
  simpl mbind.
  rewrite (vector_update_nat _ _ _ f0)
    by (rewrite lookup_app_r, Nat.sub_diag by lia; done).
  simpl mbind.
  rewrite wrap_int_small by (unfold int_max in *; lia).
  rewrite !insert_app_r_alt, !Nat.sub_diag by lia. simpl insert.
  rewrite length_app, <- !app_assoc. simpl.
  do 3 f_equal. lia.
Qed.

Lemma prob_loop (p : Z) (frest FQ Q rest : list float) :
  (length frest <= length rest)%nat ->
  Z.of_nat (length Q + length frest) <= int_max ->
  let col :=
    (fun c => MatrixXf.coeff map c p)
      <$> seqZ (Z.of_nat (length FQ)) (Z.of_nat (length frest)) in
  for_each (prob_step map p)
           (seqZ (Z.of_nat (length FQ)) (Z.of_nat (length frest)))
           (Q ++ rest, FQ ++ frest, Z.of_nat (length Q)) =
    Some (Q ++ col ++ drop (length frest) rest,
          FQ ++ zip_with Float32.add frest col,
          Z.of_nat (length Q + length frest)).
Proof.
  revert FQ Q rest.
  induction frest as [|f0 frest IH]; intros FQ Q rest Hlen Hfit.
  - simpl. by rewrite Nat.add_0_r, drop_0.
  - destruct rest as [|r rest]; [simpl in Hlen; lia|].
    simpl in Hlen, Hfit. cbv zeta.
    rewrite seqZ_cons by (simpl; lia).
    replace (Z.pred (Z.of_nat (length (f0 :: frest))))
      with (Z.of_nat (length frest)) by (simpl; lia).
    rewrite for_each_cons, prob_step_spec by lia. simpl mbind.
    set (v := MatrixXf.coeff map (Z.of_nat (length FQ)) p).
    replace (Z.succ (Z.of_nat (length FQ)))
      with (Z.of_nat (length (FQ ++ [Float32.add f0 v])))
      by (rewrite length_app; simpl; lia).
    rewrite IH; [|lia|rewrite length_app; simpl; lia].
    rewrite fmap_cons. simpl zip_with. fold v.
    rewrite !length_app, <- !app_assoc. simpl.
    do 3 f_equal. lia.
Qed.

Lemma decode_point_spec (j Cn : nat) (i l0 : Z) (pt : PointXYZRGBA.t)
    (cl : list PointXYZRGBA.t) (P rest freq : list float) (L Lrest : list Z) :
  _C self = Z.of_nat Cn ->
  length L = j -> length P = (j * Cn)%nat -> (Cn <= length rest)%nat ->
  length freq = Cn ->
  0 <= i -> cl !! Z.to_nat i = Some pt ->
  Z.of_nat (S j) <= int_max -> Z.of_nat (S j * Cn) <= int_max ->
  decode_point self map
    {| cloud_points := cl; result_prob := P ++ rest;
       result_labels := L ++ l0 :: Lrest; label_frequencies := freq;
       point_index := Z.of_nat j |} i =
  Some {| cloud_points :=
            alter (recolour (label_colour self map (Z.of_nat j))) (Z.to_nat i) cl;
          result_prob := P ++ class_column (_C self) map (Z.of_nat j) ++ drop Cn rest;
          result_labels := L ++ max_label_of (_C self) map (Z.of_nat j) :: Lrest;
          label_frequencies :=
            zip_with Float32.add freq (class_column (_C self) map (Z.of_nat j));
          point_index := Z.of_nat (S j) |}.
Proof.
  intros HC HL HP Hrest Hfreq Hi Hpt Hj HjC.
  unfold decode_point. simpl.
  unfold label_colour, recolour, class_column.
  destruct (labelToRgb (_label_converter self)
              (max_label_of (_C self) map (Z.of_nat j))) as [[r g] b] eqn:Hrgb.
  rewrite (vector_update_Z _ _ _ pt) by (done || lia). simpl.
  rewrite vector_set_nat by (rewrite length_app; simpl; lia). simpl.
  rewrite HC.
  assert (Z.of_nat Cn * Z.of_nat j = Z.of_nat (length P)) as Hidx
    by (rewrite HP, Nat2Z.inj_mul; apply Z.mul_comm).
  assert (Z.of_nat (length P) + Z.of_nat Cn <= int_max) as Hend.
  { rewrite <- Hidx.
    rewrite Nat2Z.inj_mul, Nat2Z.inj_succ, Z.mul_succ_l, Z.mul_comm in HjC.
    exact HjC. }
  assert (0 <= Z.of_nat (length P)) by lia.
  unfold int_max in Hend, Hj.
  rewrite (wrap_uint_small (Z.of_nat Cn)) by lia.
  rewrite Hidx.
  rewrite (wrap_uint_small (Z.of_nat (length P))) by lia.
  rewrite wrap_int_small by (unfold int_max; lia).
  pose proof (prob_loop (Z.of_nat j) freq [] P rest) as Hrun.
  rewrite Hfreq in Hrun. simpl in Hrun. change (Z.of_nat 0) with 0 in Hrun.
  rewrite Hrun by (unfold int_max; lia). simpl.
  rewrite wrap_uint_small by lia.
  rewrite (insert_as_alter cl (Z.to_nat i)
             (fun p => PointXYZRGBA.set_rgb p r g b) pt Hpt).
  rewrite insert_app_r_alt, HL, Nat.sub_diag by lia. simpl.
  replace (Z.of_nat j + 1) with (Z.of_nat (S j)) by lia.
  reflexivity.
Qed.

Lemma length_class_column (Cn : nat) (j : Z) :
  length (class_column (Z.of_nat Cn) map j) = Cn.
Proof. unfold class_column. by rewrite length_fmap, length_seqZ, Nat2Z.id. Qed.

Lemma length_paint (j : nat) (indices : list Z) (points : list PointXYZRGBA.t) :
  length (paint self map j indices points) = length points.
Proof.
  revert j points. induction indices as [|i l IH]; intros j points; simpl; [done|].
  by rewrite IH, length_alter.
Qed.

Lemma decode_loop_spec (Cn : nat) (indices : list Z) (j k : nat)
    (cl : list PointXYZRGBA.t) (P freq : list float) (L : list Z) :
  _C self = Z.of_nat Cn ->
  length L = j -> length P = (j * Cn)%nat -> length freq = Cn ->
  Forall (fun i => 0 <= i < Z.of_nat (length cl)) indices ->
  Z.of_nat (j + length indices) <= int_max ->
  Z.of_nat ((j + length indices) * Cn) <= int_max ->
  for_each (decode_point self map) indices
    {| cloud_points := cl;
       result_prob := P ++ replicate ((length indices + k) * Cn) Float32.zero;
       result_labels := L ++ replicate (length indices + k) 0;
       label_frequencies := freq;
       point_index := Z.of_nat j |} =
  Some {| cloud_points := paint self map j indices cl;
          result_prob :=
            P ++ (seq j (length indices) ≫=
                    (fun j' => class_column (_C self) map (Z.of_nat j')))
              ++ replicate (k * Cn) Float32.zero;
          result_labels :=
            L ++ ((fun j' => max_label_of (_C self) map (Z.of_nat j'))
                    <$> seq j (length indices))
              ++ replicate k 0;
          label_frequencies := summed self map freq j (length indices);
          point_index := Z.of_nat (j + length indices) |}.
Proof.
  intros HC. revert j cl P freq L.
  induction indices as [|i l IH]; intros j cl P freq L HL HP Hfreq Hvalid Hj HjC.
  - simpl. rewrite Nat.add_0_r. done.
  - apply Forall_cons in Hvalid as [Hi Hvalid]. simpl length in *.
    destruct (lookup_lt_is_Some_2 cl (Z.to_nat i) ltac:(lia)) as [pt Hpt].
    assert (Z.of_nat (S j * Cn) <= Z.of_nat ((j + S (length l)) * Cn)) as Hle.
    { apply Nat2Z.inj_le, Nat.mul_le_mono_r. lia. }
    rewrite for_each_cons.
    change (replicate (S (length l) + k) 0)
      with (0 :: replicate (length l + k) 0).
    rewrite (decode_point_spec j Cn i 0 pt cl P
               (replicate ((S (length l) + k) * Cn) Float32.zero) freq L
               (replicate (length l + k) 0));
      try done; try lia.
    2:{ rewrite length_replicate. simpl. lia. }
    cbn [mbind option_bind].
    replace (drop Cn (replicate ((S (length l) + k) * Cn) Float32.zero))
      with (replicate ((length l + k) * Cn) Float32.zero)
      by (rewrite drop_replicate; f_equal; lia).
    rewrite (app_assoc P), (cons_middle _ L), (app_assoc L).
    set (ml := max_label_of (_C self) map (Z.of_nat j)).
    set (col := class_column (_C self) map (Z.of_nat j)).
    set (cl' := alter (recolour (label_colour self map (Z.of_nat j))) (Z.to_nat i) cl).
    assert (length (L ++ [ml]) = S j) as H1
      by (rewrite length_app; simpl; lia).
    assert (length (P ++ col) = (S j * Cn)%nat) as H2
      by (unfold col; rewrite length_app, HC, length_class_column; lia).
    assert (Forall (fun i => 0 <= i < Z.of_nat (length cl')) l) as H3
      by (unfold cl'; rewrite length_alter; exact Hvalid).
    assert (length (zip_with Float32.add freq col) = Cn) as H4
      by (unfold col; rewrite length_zip_with, HC, length_class_column; lia).
    replace (j + S (length l))%nat with (S j + length l)%nat in * by lia.
    rewrite (IH (S j) cl' (P ++ col) _ (L ++ [ml]) H1 H2 H4 H3 Hj HjC).
    unfold summed. cbn [seq paint fold_left].
    rewrite bind_cons, fmap_cons, <- !app_assoc.
    reflexivity.
Qed.

Lemma length_summed (Cn : nat) (freq : list float) (j n : nat) :
  _C self = Z.of_nat Cn -> length freq = Cn -> length (summed self map freq j n) = Cn.
Proof.
  intros HC. unfold summed. revert j freq.
  induction n as [|n IH]; intros j freq Hfreq; simpl; [done|].
  apply IH. rewrite length_zip_with, HC, length_class_column. lia.
Qed.

End Decoding.

(** ** Painting the cloud *)

Section Painting.

Variable self : Labeler.
Variable map : MatrixXf.t.

Lemma fmap_alter_invariant {A B} (g : A -> B) (h : A -> A) (i : nat) (l : list A) :
  (forall p, g (h p) = g p) -> g <$> alter h i l = g <$> l.
Proof.
  intros Hg. apply list_eq. intros n. rewrite !list_lookup_fmap.
  destruct (decide (i = n)) as [->|Hne].
  - rewrite list_lookup_alter_eq. destruct (l !! n); simpl; [by rewrite Hg | done].
  - by rewrite list_lookup_alter_ne.
Qed.

(** Painting changes colours only. *)
Lemma paint_invariant {B} (g : PointXYZRGBA.t -> B) (j : nat) (indices : list Z)
    (points : list PointXYZRGBA.t) :
  (forall c p, g (recolour c p) = g p) ->
  g <$> paint self map j indices points = g <$> points.
Proof.
  intros Hg. revert j points.
  induction indices as [|i l IH]; intros j points; simpl; [done|].
  rewrite IH. by apply fmap_alter_invariant.
Qed.

(** A point that no column refers to keeps its value. *)
Lemma paint_untouched (j : nat) (indices : list Z) (points : list PointXYZRGBA.t)
    (k : nat) :
  Forall (fun i => Z.to_nat i <> k) indices ->
  paint self map j indices points !! k = points !! k.
Proof.
  revert j points. induction indices as [|i l IH]; intros j points H; simpl; [done|].
  apply Forall_cons in H as [Hi H].
  rewrite IH by done. by rewrite list_lookup_alter_ne.
Qed.

(** The point behind column [j + t] gets the colour of the label decoded at
    that column. *)
Lemma paint_painted (j t : nat) (indices : list Z) (points : list PointXYZRGBA.t)
    (i : Z) :
  Forall (fun i => 0 <= i) indices -> NoDup indices ->
  indices !! t = Some i ->
  paint self map j indices points !! Z.to_nat i =
    recolour (label_colour self map (Z.of_nat (j + t))) <$> points !! Z.to_nat i.
Proof.
  revert j t points.
  induction indices as [|i0 l IH]; intros j t points Hpos Hnodup Ht; [done|].
  apply Forall_cons in Hpos as [Hi0 Hpos].
  apply NoDup_cons in Hnodup as [Hnotin Hnodup].
  destruct t as [|t]; simpl in Ht.
  - injection Ht as ->. simpl. rewrite Nat.add_0_r.
    rewrite paint_untouched, list_lookup_alter_eq; [done|].
    apply Forall_forall. intros i' Hi' Heq.
    assert (0 <= i') by (eapply Forall_forall in Hpos; eauto).
    assert (i' = i) by lia. congruence.
  - simpl. rewrite (IH (S j) t) by done.
    replace (S j + t)%nat with (j + S t)%nat by lia.
    rewrite list_lookup_alter_ne; [done|].
    intros Heq. assert (0 <= i) by (eapply Forall_forall in Hpos; eauto using list_elem_of_lookup_2).
    assert (i0 = i) by lia. subst i0.
    apply Hnotin. eauto using list_elem_of_lookup_2.
Qed.

End Painting.

(** ** Frequencies and coordinates *)

Lemma normalize_loop (f : float -> float) (rest Q : list float) :
  for_each (fun fr j => vector_update fr j f)
           (seqZ (Z.of_nat (length Q)) (Z.of_nat (length rest))) (Q ++ rest) =
    Some (Q ++ (f <$> rest)).
Proof.
  revert Q. induction rest as [|x rest IH]; intros Q; [done|].
  rewrite seqZ_cons by (simpl; lia). rewrite for_each_cons.
  rewrite (vector_update_nat _ _ _ x)
    by (rewrite lookup_app_r, Nat.sub_diag by lia; done).
  simpl mbind.
  rewrite insert_app_r_alt, Nat.sub_diag by lia. simpl.
  rewrite (cons_middle (f x)), (app_assoc Q).
  replace (Z.succ (Z.of_nat (length Q))) with (Z.of_nat (length (Q ++ [f x])))
    by (rewrite length_app; simpl; lia).
  replace (Z.pred (Z.of_nat (S (length rest)))) with (Z.of_nat (length rest))
    by lia.
  rewrite IH. by rewrite <- app_assoc.
Qed.

Lemma normalize_frequencies_spec (Cn : nat) (N : Z) (freq : list float) :
  length freq = Cn ->
  normalize_frequencies (Z.of_nat Cn) N freq =
    Some ((fun f => Float32.div f (Float32.of_int N)) <$> freq).
Proof.
  intros <-. unfold normalize_frequencies.
  apply (normalize_loop _ freq []).
Qed.

Lemma copy_point_spec (points : list PointXYZRGBA.t) (i : Z) (p : PointXYZRGBA.t)
    (Q : list Point32.t) (q : Point32.t) (rest : list Point32.t) :
  0 <= i -> points !! Z.to_nat i = Some p ->
  Z.of_nat (length Q) + 1 < 2 ^ 32 ->
  copy_point points (Q ++ q :: rest, Z.of_nat (length Q)) i =
    Some ((Q ++ [coordinates p]) ++ rest, Z.of_nat (length (Q ++ [coordinates p]))).
Proof.
  intros Hi Hp Hfit. unfold copy_point, vector_get. simpl.
  rewrite decide_True by lia. rewrite Hp. simpl.
  rewrite vector_set_nat by (rewrite length_app; simpl; lia). simpl.
  rewrite wrap_uint_small by lia.
  rewrite insert_app_r_alt, Nat.sub_diag by lia. simpl.
  rewrite length_app, <- app_assoc. simpl. do 2 f_equal. lia.
Qed.

Lemma copy_loop (points : list PointXYZRGBA.t) (indices : list Z)
    (Q rest : list Point32.t) :
  Forall (fun i => 0 <= i < Z.of_nat (length points)) indices ->
  (length indices <= length rest)%nat ->
  Z.of_nat (length Q + length indices) < 2 ^ 32 ->
  for_each (copy_point points) indices (Q ++ rest, Z.of_nat (length Q)) =
    Some (Q ++ ((fun i => coordinates (points !!! Z.to_nat i)) <$> indices)
            ++ drop (length indices) rest,
          Z.of_nat (length Q + length indices)).
Proof.
  revert Q rest. induction indices as [|i l IH]; intros Q rest Hvalid Hlen Hfit.
  - simpl. by rewrite Nat.add_0_r, drop_0.
  - apply Forall_cons in Hvalid as [Hi Hvalid].
    destruct rest as [|q rest]; [simpl in Hlen; lia|]. simpl in Hlen, Hfit.
    destruct (lookup_lt_is_Some_2 points (Z.to_nat i) ltac:(lia)) as [p Hp].
    rewrite for_each_cons, (copy_point_spec _ _ p) by (done || lia).
    simpl mbind.
    rewrite IH; [|done|lia|rewrite length_app; simpl; lia].
    rewrite fmap_cons, (list_lookup_total_correct _ _ _ Hp).
    rewrite length_app, <- !app_assoc. simpl.
    do 3 f_equal. lia.
Qed.

Lemma copy_points_spec (points : list PointXYZRGBA.t) (voxels : list (Z * Voxel))
    (res_points : list Point32.t) :
  Forall (fun i => 0 <= i < Z.of_nat (length points)) (column_points voxels) ->
  length res_points = length (column_points voxels) ->
  Z.of_nat (length (column_points voxels)) < 2 ^ 32 ->
  copy_points points voxels res_points =
    Some ((fun i => coordinates (points !!! Z.to_nat i)) <$> column_points voxels).
Proof.
  intros Hvalid Hlen Hfit. unfold copy_points.
  rewrite (for_each_nested (copy_point points) (fun kv => getIndices kv.2)).
  fold (column_points voxels).
  pose proof (copy_loop points (column_points voxels) [] res_points
                Hvalid ltac:(lia) Hfit) as Hrun.
  simpl in Hrun. change (Z.of_nat 0) with 0 in Hrun.
  rewrite Hrun. simpl.
  by rewrite <- Hlen, drop_all, app_nil_r.
Qed.

(** ** The map store and the fused cloud *)

Lemma fuse_points (points : list PointXYZRGBA.t) (fused : list PointXYZRGB.t) :
  fold_left (fun fused p => fused ++ [fused_point p]) points fused =
    fused ++ (fused_point <$> points).
Proof.
  revert fused. induction points as [|p l IH]; intros fused; simpl.
  - by rewrite app_nil_r.
  - by rewrite IH, <- app_assoc.
Qed.

Lemma fuse_concat (stored : list (string * PointCloud.t)) :
  fuse stored = stored ≫= (fun e => fused_point <$> PointCloud.points e.2).
Proof.
  unfold fuse.
  enough (forall acc,
    fold_left
      (fun fused cld =>
         fold_left (fun fused p => fused ++ [fused_point p])
                   (PointCloud.points cld.2) fused)
      stored acc
    = acc ++ (stored ≫= (fun e => fused_point <$> PointCloud.points e.2)))
    as H by apply (H []).
  induction stored as [|e l IH]; intros acc; simpl.
  - by rewrite app_nil_r.
  - by rewrite IH, fuse_points, <- app_assoc.
Qed.

Lemma length_fuse (stored : list (string * PointCloud.t)) :
  length (fuse stored) = sum_list_with cloud_length stored.
Proof.
  rewrite fuse_concat. induction stored as [|e l IH]; [done|].
  rewrite bind_cons, length_app, length_fmap, IH. reflexivity.
Qed.

Lemma fused_size_exact (stored : list (string * PointCloud.t)) :
  Z.of_nat (sum_list_with cloud_length stored) <= int_max ->
  fused_size stored = Z.of_nat (sum_list_with cloud_length stored).
Proof.
  unfold fused_size.
  enough (forall acc, 0 <= acc ->
    acc + Z.of_nat (sum_list_with cloud_length stored) <= int_max ->
    fold_left (fun size cld => wrap_int (size + PointCloud.size cld.2)) stored acc
    = acc + Z.of_nat (sum_list_with cloud_length stored))
    as H by (intros; apply (H 0); lia).
  induction stored as [|e l IH]; intros acc Hacc Hfit; simpl in *; [lia|].
  unfold PointCloud.size, cloud_length in *.
  rewrite wrap_int_small by (unfold int_max in *; lia).
  rewrite IH by lia. lia.
Qed.

Lemma stored_clouds_Permutation (self : Labeler) :
  stored_clouds self ≡ₚ map_to_list (_stored_waypoints self).
Proof. apply merge_sort_Permutation. Qed.

Lemma stored_clouds_count (self : Labeler) :
  sum_list_with cloud_length (stored_clouds self) =
    stored_point_count (_stored_waypoints self).
Proof. unfold stored_point_count. by rewrite stored_clouds_Permutation. Qed.

Lemma publish_clouds_spec (self : Labeler) :
  Z.of_nat (stored_point_count (_stored_waypoints self)) <= int_max ->
  publish_clouds self =
    Some [EvPublish (fuse (stored_clouds self)) (_frame_id self)].
Proof.
  intros Hfit. unfold publish_clouds.
  rewrite fused_size_exact by (by rewrite stored_clouds_count).
  by rewrite decide_True by lia.
Qed.

Lemma stored_point_count_insert (stored : gmap string PointCloud.t)
    (id : string) (cloud : PointCloud.t) :
  stored_point_count (<[id := cloud]> stored) =
    (stored_point_count (delete id stored) + length (PointCloud.points cloud))%nat.
Proof.
  unfold stored_point_count.
  rewrite <- insert_delete_eq.
  rewrite map_to_list_insert by apply lookup_delete_eq.
  simpl. unfold cloud_length at 1. simpl. lia.
Qed.

(** ** The whole pipeline *)

Section Pipeline.

Variable W : Collaborators.
Variable self : Labeler.

Lemma label_acquired_cloud_spec (req : Request) (res : Response.t)
    (cloud : PointCloud.t) (voxels : list (Z * Voxel))
    (voxelized_cloud : PointCloud.t) :
  extractVoxels (_dl self) (convert_to_lab W cloud) = (voxels, voxelized_cloud) ->
  let kept0 := retained (_minimum_points self) voxels in
  let kept := with_features W <$> kept0 in
  let n := length (column_points kept0) in
  let map := inferred_map W self kept (Z.of_nat n) in
  let self' :=
    store_waypoint self (waypoint_id req) (painted_cloud self map voxelized_cloud kept0) in
  request_fits self (waypoint_id req) kept0 voxelized_cloud ->
  label_acquired_cloud W self req res cloud =
    Some {| returned := true;
            response :=
              {| Response.index_to_label_name :=
                   getLabelNames (_label_converter self);
                 Response.label := decoded_labels self map n;
                 Response.label_probabilities := decoded_probabilities self map n;
                 Response.label_frequencies := decoded_frequencies self map n;
                 Response.points := retained_coordinates voxelized_cloud kept0 |};
            labeler := self';
            events :=
              EvExtractVoxels
                :: ((fun kv => EvComputeFeatures kv.1) <$> kept0)
                ++ ((fun kv => EvClassLogPosterior kv.1 (getFeatures kv.2)) <$> kept)
                ++ [EvInference (Z.of_nat n) (_C self);
                    EvPublish (fuse (stored_clouds self')) (_frame_id self)] |}.
Proof.
  intros Hextract kept0 kept n map self' (HC & Hn & HnC & Hvalid & Hstored).
  assert (sum_sizes kept0 = Z.of_nat n) as Hsum
    by apply sum_sizes_column_points.
  rewrite Hsum in *.
  set (Cn := Z.to_nat (_C self)).
  assert (_C self = Z.of_nat Cn) as HCn by (unfold Cn; lia).
  assert (column_points kept = column_points kept0) as Hcols
    by apply column_points_with_features.
  unfold label_acquired_cloud. rewrite Hextract.
  rewrite filter_voxels_retained by (fold kept0; lia).
  fold kept0. fold kept. rewrite Hsum. rewrite Z.add_0_l.
  pose proof (build_crf_mats_spec W self
    (get_float (_conf self) "appearance_color_sigma")
    (get_float (_conf self) "appearance_range_sigma")
    (get_float (_conf self) "smoothnes_range_sigma") kept
    {| unary := MatrixXf.make (_C self) (Z.of_nat n);
       feature := MatrixXf.make 6 (Z.of_nat n);
       feature2 := MatrixXf.make 3 (Z.of_nat n) |} 0 ltac:(lia)) as Hbuild.
  assert (map = inferred_map W self kept (Z.of_nat n)) as Hmap by reflexivity.
  unfold inferred_map, energy_matrices in Hmap.
  destruct (build_crf_mats W self kept _ 0 _ _ _) as [[mats pidx] ev_forest].
  destruct Hbuild as (_ & Hev & _).
  { rewrite sum_sizes_column_points, Hcols. fold n. unfold int_max in Hn. lia. }
  simpl in Hev, Hmap. rewrite <- Hmap. clear Hmap. subst ev_forest.
  (* the result vectors *)
  replace (Z.of_nat n * _C self) with (Z.of_nat (n * Cn))
    by (rewrite Nat2Z.inj_mul, <- HCn; reflexivity).
  rewrite wrap_int_small
    by (rewrite Nat2Z.inj_mul, <- HCn; unfold int_max in *; lia).
  rewrite !vector_new_nat. simpl mbind.
  replace (vector_new (_C self) Float32.zero)
    with (Some (replicate Cn Float32.zero))
    by (rewrite HCn at 1; symmetry; apply vector_new_nat).
  simpl mbind.
  (* the decoding loop *)
  unfold decode_voxels.
  rewrite (for_each_nested (decode_point self map) (fun kv => getIndices kv.2)).
  fold (column_points kept). rewrite Hcols.
  pose proof (decode_loop_spec self map Cn (column_points kept0) 0 0
                (paint_black (PointCloud.points voxelized_cloud)) []
                (replicate Cn Float32.zero) [] HCn eq_refl eq_refl) as Hrun.
  simpl in Hrun. fold n in Hrun. rewrite Nat.add_0_r in Hrun.
  change (Z.of_nat 0) with 0 in Hrun.
  rewrite Hrun; clear Hrun; cycle 1.
  { apply length_replicate. }
  { unfold paint_black. rewrite length_fmap. exact Hvalid. }
  { lia. }
  { rewrite Nat2Z.inj_mul, <- HCn. lia. }
  simpl mbind. rewrite !app_nil_r.
  cbn [label_frequencies cloud_points result_prob result_labels].
  (* the frequencies *)
  replace (normalize_frequencies (_C self) (Z.of_nat n)
             (summed self map (replicate Cn Float32.zero) 0 n))
    with (Some (decoded_frequencies self map n)).
  2:{ rewrite HCn at 1. symmetry. apply normalize_frequencies_spec.
      apply length_summed; [exact HCn | apply length_replicate]. }
  simpl mbind.
  (* the coordinates *)
  unfold vector_resize. rewrite decide_True by lia. simpl mbind.
  rewrite Nat2Z.id.
  rewrite copy_points_spec; cycle 1.
  { rewrite Hcols, length_paint. unfold paint_black. rewrite length_fmap.
    exact Hvalid. }
  { rewrite Hcols. apply length_resize. }
  { rewrite Hcols. fold n. unfold int_max in Hn. lia. }
  simpl mbind.
  (* the store and the publication *)
  fold (painted_cloud self map voxelized_cloud kept0). fold self'.
  rewrite publish_clouds_spec; cycle 1.
  { unfold self', store_waypoint. simpl.
    rewrite stored_point_count_insert in *. unfold painted_cloud. simpl.
    rewrite length_paint. unfold paint_black. rewrite length_fmap. exact Hstored. }
  simpl mbind.
  assert ((fun i => coordinates
             (paint self map 0 (column_points kept0)
                (paint_black (PointCloud.points voxelized_cloud))
              !!! Z.to_nat i)) <$> column_points kept
          = retained_coordinates voxelized_cloud kept0) as Hpts.
  { unfold retained_coordinates. rewrite Hcols.
    apply list_eq. intros t. rewrite !list_lookup_fmap.
    destruct (column_points kept0 !! t) as [i|] eqn:Hi; [simpl|done].
    f_equal.
    assert (0 <= i < PointCloud.size voxelized_cloud) as Hrange
      by (eapply Forall_forall in Hvalid; eauto using list_elem_of_lookup_2).
    unfold PointCloud.size in Hrange.
    pose proof (paint_invariant self map coordinates 0 (column_points kept0)
                  (paint_black (PointCloud.points voxelized_cloud))
                  ltac:(done)) as Hcoord.
    unfold paint_black in Hcoord at 2.
    rewrite <- list_fmap_compose in Hcoord.
    apply (f_equal (fun l => l !! Z.to_nat i)) in Hcoord.
    rewrite !list_lookup_fmap in Hcoord.
    destruct (lookup_lt_is_Some_2 (PointCloud.points voxelized_cloud)
                (Z.to_nat i) ltac:(lia)) as [p Hp].
    rewrite Hp in Hcoord. simpl in Hcoord.
    destruct (paint self map 0 _ _ !! Z.to_nat i) as [p'|] eqn:Hp';
      [|done].
    rewrite (list_lookup_total_correct _ _ _ Hp).
    rewrite (list_lookup_total_correct _ _ _ Hp').
    assert (Some (coordinates p') = Some (coordinates p)) as Heq
      by exact Hcoord.
    congruence. }
  rewrite Hpts. reflexivity.
Qed.

End Pipeline.

(** ** The handler *)

Section Handler.

Variable W : Collaborators.
Variable self : Labeler.

(** The pipeline reads the forest, the label converter and the class count
    of the labeler, and nothing else of it. *)
Lemma build_crf_mats_ext (other : Labeler) (voxels : list (Z * Voxel))
    (mats : CrfMats) (p : Z) (acs ars srs : float) :
  _forest other = _forest self ->
  build_crf_mats W other voxels mats p acs ars srs =
    build_crf_mats W self voxels mats p acs ars srs.
Proof.
  intros Hforest.
  revert mats p. induction voxels as [|[id v] l IH]; intros mats p; [done|].
  simpl. rewrite Hforest.
  destruct (addDataToCrfMats W v mats p _ acs ars srs) as [mats1 p1].
  by rewrite IH.
Qed.

Lemma inferred_map_ext (other : Labeler) (kept : list (Z * Voxel)) (N : Z) :
  _forest other = _forest self -> _conf other = _conf self ->
  _C other = _C self ->
  inferred_map W other kept N = inferred_map W self kept N.
Proof.
  intros Hforest Hconf HC. unfold inferred_map, energy_matrices.
  by rewrite Hconf, HC, build_crf_mats_ext.
Qed.

Lemma paint_ext (other : Labeler) (map : MatrixXf.t) (j : nat)
    (indices : list Z) (points : list PointXYZRGBA.t) :
  _label_converter other = _label_converter self -> _C other = _C self ->
  paint other map j indices points = paint self map j indices points.
Proof.
  intros Hconv HC.
  revert j points. induction indices as [|i l IH]; intros j points; [done|].
  simpl. rewrite IH. unfold label_colour. by rewrite Hconv, HC.
Qed.

Lemma label_cloud_spec (req : Request) (res : Response.t) (msg : PointCloud2)
    (origin : SensorOrigin) (voxels : list (Z * Voxel))
    (voxelized_cloud : PointCloud.t) :
  acquisition W self req msg origin voxels voxelized_cloud ->
  request_fits self (waypoint_id req)
               (retained (_minimum_points self) voxels) voxelized_cloud ->
  label_cloud W self req res = Some (success W self req msg voxels voxelized_cloud).
Proof.
  intros (Hcloud & Horigin & Hextract) Hfits.
  unfold label_cloud. rewrite Hcloud, Horigin.
  fold (acquired_cloud msg origin).
  rewrite (label_acquired_cloud_spec W (set_frame_id self (header_frame_id msg))
             req res (acquired_cloud msg origin) voxels voxelized_cloud
             Hextract Hfits).
  unfold success, painted_cloud.
  rewrite inferred_map_ext, paint_ext by done. reflexivity.
Qed.

(** The response arrays, entry by entry. *)

Lemma length_decoded_labels (map : MatrixXf.t) (n : nat) :
  length (decoded_labels self map n) = n.
Proof. unfold decoded_labels. by rewrite length_fmap, length_seq. Qed.


Lemma blocks_length {A} (f : nat -> list A) (m j n : nat) :
  (forall k, length (f k) = m) -> length (seq j n ≫= f) = (n * m)%nat.
Proof.
  intros Hf. revert j. induction n as [|n IH]; intros j; [done|].
  cbn [seq]. rewrite bind_cons, length_app, Hf, IH. lia.
Qed.

Lemma blocks_lookup {A} (f : nat -> list A) (m j0 n j c : nat) :
  (forall k, length (f k) = m) -> (j < n)%nat -> (c < m)%nat ->
  (seq j0 n ≫= f) !! (j * m + c)%nat = f (j0 + j)%nat !! c.
Proof.
  intros Hf. revert j0 j. induction n as [|n IH]; intros j0 j Hj Hc; [lia|].
  cbn [seq]. rewrite bind_cons. destruct j as [|j].
  - rewrite lookup_app_l by (rewrite Hf; lia). by rewrite Nat.add_0_r.
  - rewrite lookup_app_r by (rewrite Hf; lia). rewrite Hf.
    replace (S j * m + c - m)%nat with (j * m + c)%nat by lia.
    rewrite IH by lia. f_equal. f_equal. lia.
Qed.

Lemma length_decoded_probabilities (map : MatrixXf.t) (n : nat) :
  0 <= _C self ->
  length (decoded_probabilities self map n) = (n * Z.to_nat (_C self))%nat.
Proof.
  intros HC. unfold decoded_probabilities. apply blocks_length.
  intros k. rewrite <- (Z2Nat.id (_C self)) at 1 by lia.
  apply length_class_column.
Qed.

Lemma lookup_decoded_probabilities (map : MatrixXf.t) (n j c : nat) :
  (j < n)%nat -> (c < Z.to_nat (_C self))%nat ->
  decoded_probabilities self map n !! (j * Z.to_nat (_C self) + c)%nat =
    Some (MatrixXf.coeff map (Z.of_nat c) (Z.of_nat j)).
Proof.
  intros Hj Hc. unfold decoded_probabilities.
  rewrite (blocks_lookup _ (Z.to_nat (_C self))); [| |done|done].
  - unfold class_column. rewrite list_lookup_fmap.
    rewrite lookup_seqZ_lt by lia. simpl. do 2 f_equal. 
  - intros k. rewrite <- (Z2Nat.id (_C self)) at 1 by lia.
    apply length_class_column.
Qed.

Lemma length_decoded_frequencies (map : MatrixXf.t) (n : nat) :
  0 <= _C self ->
  length (decoded_frequencies self map n) = Z.to_nat (_C self).
Proof.
  intros HC. unfold decoded_frequencies. rewrite length_fmap.
  apply length_summed; [lia | apply length_replicate].
Qed.

Lemma decoded_frequencies_no_point (map : MatrixXf.t) :
  decoded_frequencies self map 0 = replicate (Z.to_nat (_C self)) S754_nan.
Proof.
  unfold decoded_frequencies, summed. cbn [seq fold_left].
  rewrite fmap_replicate. reflexivity.
Qed.

Lemma column_owners_with_features (voxels : list (Z * Voxel)) :
  column_owners (with_features W <$> voxels) =
    (fun o => (with_features W o.1, o.2)) <$> column_owners voxels.
Proof.
  unfold column_owners. induction voxels as [|kv l IH]; [done|].
  rewrite fmap_cons, !bind_cons, fmap_app, IH. f_equal.
  rewrite <- list_fmap_compose. reflexivity.
Qed.

Lemma retained_idempotent (m : Z) (voxels : list (Z * Voxel)) :
  retained m (retained m voxels) = retained m voxels.
Proof.
  unfold retained. induction voxels as [|kv l IH]; [done|].
  rewrite filter_cons. destruct (decide (large_enough m kv)) as [H|H].
  - rewrite filter_cons, decide_True by done. by rewrite IH.
  - exact IH.
Qed.

(** Every stored cloud lies in the fused cloud as one block. *)
Lemma fuse_contains (stored : Labeler) (id : string) (cloud : PointCloud.t) :
  _stored_waypoints stored !! id = Some cloud ->
  exists before after,
    fuse (stored_clouds stored) =
      before ++ (fused_point <$> PointCloud.points cloud) ++ after.
Proof.
  intros Hid.
  assert ((id, cloud) ∈ stored_clouds stored) as Hin.
  { rewrite stored_clouds_Permutation. by apply elem_of_map_to_list. }
  apply list_elem_of_split in Hin as (l1 & l2 & Heq).
  rewrite fuse_concat, Heq, bind_app, bind_cons. eauto.
Qed.

End Handler.

Lemma stored_point_count_lookup (stored : gmap string PointCloud.t)
    (id : string) (old : PointCloud.t) :
  stored !! id = Some old ->
  stored_point_count stored =
    (stored_point_count (delete id stored) + length (PointCloud.points old))%nat.
Proof.
  intros Hold. unfold stored_point_count.
  rewrite <- (map_to_list_delete _ _ _ Hold). simpl.
  unfold cloud_length at 1. simpl. lia.
Qed.

(** ** The events of one request *)





Lemma published_features (l : list (Z * Voxel)) :
  published ((fun kv => EvComputeFeatures kv.1) <$> l) = [].
Proof. induction l as [|kv l IH]; [done|]. exact IH. Qed.

Lemma published_posterior (l : list (Z * Voxel)) :
  published ((fun kv => EvClassLogPosterior kv.1 (getFeatures kv.2)) <$> l) = [].
Proof. induction l as [|kv l IH]; [done|]. exact IH. Qed.



Lemma success_published (W : Collaborators) (self : Labeler) (req : Request)
    (msg : PointCloud2) (voxels : list (Z * Voxel)) (voxelized_cloud : PointCloud.t) :
  published (events (success W self req msg voxels voxelized_cloud)) =
    [fuse (stored_clouds (labeler (success W self req msg voxels voxelized_cloud)))].
Proof.
  unfold success. cbn [events labeler].
  change (published (EvExtractVoxels :: ?l)) with (published l).
  unfold published. rewrite !omap_app. fold published.
  rewrite published_features, published_posterior.
  reflexivity.
Qed.

(** ** The labeler behind another cloud client *)

(** Once the cloud is acquired the pipeline does not ask the cloud service:
    behind another client it leaves the same outcome. *)
Lemma label_acquired_cloud_behind (W : Collaborators) (self : Labeler)
    (cloud_service : ServiceClient) (req : Request) (res : Response.t)
    (cloud : PointCloud.t) :
  label_acquired_cloud W (with_cloud_service self cloud_service) req res cloud =
    behind cloud_service <$> label_acquired_cloud W self req res cloud.
Proof.
  unfold label_acquired_cloud.
  cbn [with_cloud_service _dl _minimum_points _conf _C _label_converter].
  destruct (extractVoxels (_dl self) _) as [voxels voxelized_cloud].
  destruct (filter_voxels W _ voxels 0) as [[N kept] ev_features].
  rewrite (build_crf_mats_ext W self (with_cloud_service self cloud_service))
    by done.
  destruct (build_crf_mats W self _ _ _ _ _ _) as [[mats pi] ev_forest].
  destruct (vector_new (wrap_int _) _) as [result_prob0|]; [|done]. simpl.
  destruct (vector_new N 0) as [result_labels0|]; [|done]. simpl.
  destruct (vector_new (_C self) _) as [label_frequencies0|]; [|done]. simpl.
  change (decode_voxels (with_cloud_service self cloud_service))
    with (decode_voxels self).
  destruct (decode_voxels self _ _ _) as [d|]; [|done]. simpl.
  destruct (normalize_frequencies _ _ _) as [frequencies|]; [|done]. simpl.
  destruct (vector_resize _ _ _) as [res_points0|]; [|done]. simpl.
  destruct (copy_points _ _ _) as [res_points|]; [|done]. simpl.
  change (publish_clouds
            (store_waypoint (with_cloud_service self cloud_service) ?id ?c))
    with (publish_clouds (store_waypoint self id c)).
  destruct (publish_clouds _) as [ev_publish|]; [|done]. reflexivity.
Qed.

(** * The properties of the specification *)

Section Specification.

Variable W : Collaborators.
Variable self : Labeler.

(** C9: after a successful request the hard label array has length [N], the
    probability array has length [N * C] and holds the probability of class
    [c] for point [j] at index [j * C + c], the frequency array has length
    [C], and the coordinate array has length [N]; [N] is the count left by
    the filter loop.  There is at least one class. *)
Theorem response_shapes (req : Request) (res : Response.t) (msg : PointCloud2)
    (origin : SensorOrigin) (voxels : list (Z * Voxel))
    (voxelized_cloud : PointCloud.t) :
  0 < _C self ->
  acquisition W self req msg origin voxels voxelized_cloud ->
  request_fits self (waypoint_id req)
               (retained (_minimum_points self) voxels) voxelized_cloud ->
  let kept := with_features W <$> retained (_minimum_points self) voxels in
  let N := length (column_points kept) in
  let C := Z.to_nat (_C self) in
  let map := inferred_map W self kept (Z.of_nat N) in
  (filter_voxels W (_minimum_points self) voxels 0).1.1 = Z.of_nat N /\
  exists out,
    label_cloud W self req res = Some out /\ returned out = true /\
    length (Response.label (response out)) = N /\
    length (Response.label_probabilities (response out)) = (N * C)%nat /\
    (forall j c, (j < N)%nat -> (c < C)%nat ->
       Response.label_probabilities (response out) !! (j * C + c)%nat =
         Some (MatrixXf.coeff map (Z.of_nat c) (Z.of_nat j))) /\
    length (Response.label_frequencies (response out)) = C /\
    length (Response.points (response out)) = N.
Proof.
  intros HCpos Hacq Hfits kept N C map.
  pose proof Hfits as (HC & Hn & _).
  assert (column_points kept = column_points (retained (_minimum_points self) voxels))
    as Hcols by apply column_points_with_features.
  split.
  - rewrite filter_voxels_retained by (rewrite ?Z.add_0_l; lia).
    simpl. rewrite sum_sizes_column_points, <- Hcols. reflexivity.
  - exists (success W self req msg voxels voxelized_cloud).
    split; [by eapply label_cloud_spec|]. split; [done|].
    unfold success. simpl. fold kept. rewrite <- Hcols. fold N. fold map.
    repeat split.
    + apply length_decoded_labels.
    + by apply length_decoded_probabilities.
    + intros j c Hj Hc. by apply lookup_decoded_probabilities.
    + by apply length_decoded_frequencies.
    + unfold retained_coordinates. by rewrite length_fmap, <- Hcols.
Qed.


(** C4: the filter retains exactly the segments with at least the configured
    number of points, [N] is the sum of their sizes, the map that the later
    stages iterate holds no other segment, and the discarded segments reach
    no output array: labels, probabilities and frequencies have one entry
    per retained point or class, the coordinates are those of the member
    points of the retained segments, and the response, the events and the
    stored clouds are those of a segmentation that never delivered the
    discarded segments.
    There is at least one class. *)
Theorem filter_retains_large_segments (req : Request) (res : Response.t)
    (msg : PointCloud2) (origin : SensorOrigin) (voxels : list (Z * Voxel))
    (voxelized_cloud : PointCloud.t) :
  0 < _C self ->
  acquisition W self req msg origin voxels voxelized_cloud ->
  request_fits self (waypoint_id req)
               (retained (_minimum_points self) voxels) voxelized_cloud ->
  let kept0 := retained (_minimum_points self) voxels in
  filter_voxels W (_minimum_points self) voxels 0 =
    (sum_sizes kept0, with_features W <$> kept0,
     (fun kv => EvComputeFeatures kv.1) <$> kept0) /\
  (forall kv, kv ∈ kept0 <-> kv ∈ voxels /\ getSize kv.2 >= _minimum_points self) /\
  exists out,
    label_cloud W self req res = Some out /\
    Z.of_nat (length (Response.label (response out))) = sum_sizes kept0 /\
    Z.of_nat (length (Response.label_probabilities (response out))) =
      sum_sizes kept0 * _C self /\
    Response.points (response out) =
      (fun i => coordinates (PointCloud.points voxelized_cloud !!! Z.to_nat i))
        <$> column_points kept0 /\
    exists out',
      label_cloud W (without_small_segments self) req res = Some out' /\
      response out' = response out /\
      events out' = events out /\
      _stored_waypoints (labeler out') = _stored_waypoints (labeler out).
Proof.
  intros HCpos Hacq Hfits kept0.
  pose proof Hfits as (HC & Hn & _).
  assert (retained (_minimum_points self) kept0 = kept0) as Hidem
    by apply retained_idempotent.
  split; [|split].
  - rewrite filter_voxels_retained by (rewrite ?Z.add_0_l; exact Hn || lia).
    by rewrite Z.add_0_l.
  - intros kv. unfold kept0, retained. rewrite list_elem_of_filter.
    unfold large_enough. tauto.
  - exists (success W self req msg voxels voxelized_cloud).
    split; [by eapply label_cloud_spec|].
    unfold success at 1 2 3. simpl. fold kept0.
    rewrite length_decoded_labels, length_decoded_probabilities by done.
    rewrite sum_sizes_column_points, Nat2Z.inj_mul, Z2Nat.id by lia.
    repeat split; try done.
    exists (success W (without_small_segments self) req msg kept0 voxelized_cloud).
    split.
    + apply (label_cloud_spec W (without_small_segments self) req res msg origin).
      * destruct Hacq as (Hcloud & Horigin & Hextract).
        repeat split; try done. simpl. by rewrite Hextract.
      * change (request_fits self (waypoint_id req)
                  (retained (_minimum_points self) kept0) voxelized_cloud).
        rewrite Hidem. exact Hfits.
    + unfold success.
      change (_minimum_points (without_small_segments self))
        with (_minimum_points self).
      rewrite Hidem. fold kept0.
      rewrite (inferred_map_ext W self (without_small_segments self)) by done.
      unfold painted_cloud.
      rewrite (paint_ext self (without_small_segments self)) by done.
      done.
Qed.


(** C10: the cloud stored under the identifier of the request holds every
    point of the voxelized cloud, with its coordinates.  A point that no
    retained segment refers to, so every point of a discarded segment, is
    black; a point of a retained segment carries the colour of its label.
    The stored cloud, black points included, is a block of the published
    fused cloud.
    There is at least one class. *)
Theorem stored_cloud_keeps_discarded_points (req : Request) (res : Response.t)
    (msg : PointCloud2) (origin : SensorOrigin) (voxels : list (Z * Voxel))
    (voxelized_cloud : PointCloud.t) :
  0 < _C self ->
  acquisition W self req msg origin voxels voxelized_cloud ->
  request_fits self (waypoint_id req)
               (retained (_minimum_points self) voxels) voxelized_cloud ->
  let kept0 := retained (_minimum_points self) voxels in
  let kept := with_features W <$> kept0 in
  let map := inferred_map W self kept (Z.of_nat (length (column_points kept))) in
  exists out stored,
    label_cloud W self req res = Some out /\
    _stored_waypoints (labeler out) !! waypoint_id req = Some stored /\
    length (PointCloud.points stored) = length (PointCloud.points voxelized_cloud) /\
    coordinates <$> PointCloud.points stored =
      coordinates <$> PointCloud.points voxelized_cloud /\
    (forall (k : nat) (p : PointXYZRGBA.t),
       PointCloud.points stored !! k = Some p ->
       Z.of_nat k ∉ column_points kept0 -> colour p = (0, 0, 0)) /\
    (forall kv i,
       kv ∈ voxels -> ~ large_enough (_minimum_points self) kv ->
       i ∈ getIndices kv.2 -> 0 <= i < PointCloud.size voxelized_cloud ->
       i ∉ column_points kept0 ->
       exists p,
         PointCloud.points stored !! Z.to_nat i = Some p /\
         colour p = (0, 0, 0)) /\
    (NoDup (column_points kept0) ->
     forall (j : nat) (i : Z),
       column_points kept0 !! j = Some i ->
       colour <$> PointCloud.points stored !! Z.to_nat i =
         Some (labelToRgb (_label_converter self)
                 (max_label_of (_C self) map (Z.of_nat j)))) /\
    exists fused before after,
      published (events out) = [fused] /\
      fused = before ++ (fused_point <$> PointCloud.points stored) ++ after.
Proof.
  intros HCpos Hacq Hfits kept0 kept map.
  pose proof Hfits as (HC & Hn & _ & Hvalid & _).
  assert (column_points kept = column_points kept0) as Hcols
    by apply column_points_with_features.
  assert (Forall (fun i => 0 <= i) (column_points kept0)) as Hpos
    by (eapply Forall_impl; [exact Hvalid|]; simpl; intros; lia).
  assert (map = inferred_map W self kept
                  (Z.of_nat (length (column_points kept0)))) as Hmap
    by (unfold map; by rewrite Hcols).
  clearbody map. subst map.
  set (map := inferred_map W self kept (Z.of_nat (length (column_points kept0)))).
  set (out := success W self req msg voxels voxelized_cloud).
  set (stored := painted_cloud self map voxelized_cloud kept0).
  assert (_stored_waypoints (labeler out) !! waypoint_id req = Some stored)
    as Hstored by apply lookup_insert_eq.
  assert (forall (k : nat) (p : PointXYZRGBA.t),
            PointCloud.points stored !! k = Some p ->
            Z.of_nat k ∉ column_points kept0 -> colour p = (0, 0, 0)) as Hblack.
  { intros k p Hp Hk. unfold stored, painted_cloud in Hp. simpl in Hp.
    rewrite paint_untouched in Hp.
    - unfold paint_black in Hp. rewrite list_lookup_fmap in Hp.
      destruct (PointCloud.points voxelized_cloud !! k); [|done].
      simpl in Hp. injection Hp as <-. done.
    - apply Forall_forall. intros i Hi Heq. apply Hk.
      assert (0 <= i) by (eapply Forall_forall in Hpos; eauto).
      replace (Z.of_nat k) with i by lia. done. }
  exists out, stored.
  split; [by eapply label_cloud_spec|]. split; [exact Hstored|].
  split; [|split; [|split; [|split; [|split]]]].
  - unfold stored, painted_cloud. simpl.
    rewrite length_paint. unfold paint_black. by rewrite length_fmap.
  - unfold stored, painted_cloud. simpl.
    rewrite paint_invariant by done.
    unfold paint_black. rewrite <- list_fmap_compose. done.
  - exact Hblack.
  - intros kv i Hkv Hsmall Hi Hrange Hnot.
    assert (length (PointCloud.points stored)
            = length (PointCloud.points voxelized_cloud)) as Hlen.
    { unfold stored, painted_cloud. simpl.
      rewrite length_paint. unfold paint_black. by rewrite length_fmap. }
    unfold PointCloud.size in Hrange.
    destruct (lookup_lt_is_Some_2 (PointCloud.points stored) (Z.to_nat i)
                ltac:(lia)) as [p Hp].
    exists p. split; [done|]. apply (Hblack _ _ Hp).
    by rewrite Z2Nat.id by lia.
  - intros Hnodup j i Hj. unfold stored, painted_cloud. simpl.
    rewrite (paint_painted self map 0 j _ _ i) by done.
    unfold paint_black. rewrite list_lookup_fmap.
    assert (0 <= i < PointCloud.size voxelized_cloud) as Hi
      by (eapply Forall_forall in Hvalid; eauto using list_elem_of_lookup_2).
    unfold PointCloud.size in Hi.
    destruct (lookup_lt_is_Some_2 (PointCloud.points voxelized_cloud)
                (Z.to_nat i) ltac:(lia)) as [p Hp].
    rewrite Hp. simpl. unfold colour, recolour, label_colour. simpl.
    by destruct (labelToRgb _ _) as [[r g] b].
  - destruct (fuse_contains (labeler out) (waypoint_id req) stored Hstored)
      as (before & after & Hfused).
    exists (fuse (stored_clouds (labeler out))), before, after.
    split; [|exact Hfused].
    apply success_published.
Qed.

(** C1, on the code: a request that retains no point (every segment is
    below the threshold, or there is none) is answered with empty label,
    probability and coordinate arrays, and with a frequency array whose
    entries are all NaN, one per class: the normalisation divides zero by
    [float(0)]. *)
Theorem frequencies_without_retained_points (req : Request) (res : Response.t)
    (msg : PointCloud2) (origin : SensorOrigin) (voxels : list (Z * Voxel))
    (voxelized_cloud : PointCloud.t) :
  acquisition W self req msg origin voxels voxelized_cloud ->
  request_fits self (waypoint_id req)
               (retained (_minimum_points self) voxels) voxelized_cloud ->
  column_points (retained (_minimum_points self) voxels) = [] ->
  exists out,
    label_cloud W self req res = Some out /\ returned out = true /\
    Response.label (response out) = [] /\
    Response.label_probabilities (response out) = [] /\
    Response.points (response out) = [] /\
    Response.label_frequencies (response out) =
      replicate (Z.to_nat (_C self)) S754_nan.
Proof.
  intros Hacq Hfits Hnone.
  exists (success W self req msg voxels voxelized_cloud).
  split; [by eapply label_cloud_spec|].
  unfold success. simpl. unfold retained_coordinates. rewrite Hnone. simpl.
  repeat split; try done.
  apply decoded_frequencies_no_point.
Qed.

(** C6: when the cloud service or the origin service fails, either handler
    returns [false] and leaves the labeler as it was, the stored clouds and
    the frame identifier included; the response is untouched, and no call
    of the segmentation, of the features, of the forest, of the inference
    or of the publisher is made. *)
Theorem failed_acquisition_changes_nothing (call : Call) (res : Response.t) :
  cloud_acquisition self call = None \/ origin_acquisition self call = None ->
  handle W self call res = Some (failure self res) /\
  returned (failure self res) = false /\
  _stored_waypoints (labeler (failure self res)) = _stored_waypoints self /\
  events (failure self res) = [].
Proof.
  intros Hfail. split; [|done].
  destruct call as [req|req]; simpl in *;
    unfold label_cloud, Plus.label_cloud_plus, origin_acquisition in *;
    simpl in *.
  - destruct (call_ObservationService _ _); [|done].
    destruct Hfail as [Hfail|Hfail]; [done|]. by rewrite Hfail.
  - destruct (call_ObservationInstanceService _ _); [|done].
    destruct Hfail as [Hfail|Hfail]; [done|]. by rewrite Hfail.
Qed.

(** C8: the two handlers agree on everything they leave behind.  The
    plain handler runs on a labeler with its client of the plain cloud
    service, the instance handler on the same labeler behind a client of
    the instance service, as [main] builds them; when the instance service
    gives the instance-scoped request the answer that the plain service
    gives the plain request for the same waypoint, the two requests end
    alike: the return value, the response with its five fields, the stored
    clouds, the frame identifier and the events are the same, and the two
    labelers still differ in their cloud client only. *)
Theorem handlers_agree (plus_service : ServiceClient) (req : Request)
    (reqp : InstanceRequest.t) (res : Response.t) :
  InstanceRequest.waypoint_id reqp = waypoint_id req ->
  cloud_acquisition (with_cloud_service self plus_service) (InstanceCall reqp)
    = cloud_acquisition self (PlainCall req) ->
  Plus.label_cloud_plus W (with_cloud_service self plus_service) reqp res =
    behind plus_service <$> label_cloud W self req res /\
  forall out, label_cloud W self req res = Some out ->
    exists out',
      Plus.label_cloud_plus W (with_cloud_service self plus_service) reqp res
        = Some out' /\
      returned out' = returned out /\
      response out' = response out /\
      _stored_waypoints (labeler out') = _stored_waypoints (labeler out) /\
      _frame_id (labeler out') = _frame_id (labeler out) /\
      events out' = events out.
Proof.
  intros Hid Hcloud.
  assert (Plus.label_cloud_plus W (with_cloud_service self plus_service) reqp res
          = behind plus_service <$> label_cloud W self req res) as Heq.
  { unfold Plus.label_cloud_plus, label_cloud.
    simpl in Hcloud. cbn [with_cloud_service _cloud_service _origin_service].
    rewrite Hcloud, Hid.
    destruct (call_ObservationService _ _) as [msg|]; [|done].
    destruct (call_SensorOriginService _ _) as [origin|]; [|done].
    change (Plus.label_acquired_cloud W ?s reqp res ?c)
      with (label_acquired_cloud W s (waypoint_of reqp) res c).
    change (set_frame_id (with_cloud_service self plus_service) ?f)
      with (with_cloud_service (set_frame_id self f) plus_service).
    rewrite label_acquired_cloud_behind.
    unfold waypoint_of. rewrite Hid. by destruct req. }
  split; [exact Heq|].
  intros out Hout. rewrite Hout in Heq.
  exists (behind plus_service out). by split.
Qed.

(** C5: after any sequence of store operations, storing a cloud under an
    identifier makes it the entry of that identifier and leaves the other
    entries alone; the fused cloud has as many points as all stored clouds
    together, every stored cloud lies in it as one block with coordinates
    and colours copied, and a cloud stored again under the same identifier
    replaces the contribution of the former one. *)
Theorem store_and_fuse (ops : list (string * PointCloud.t)) (id : string)
    (cloud : PointCloud.t) :
  let before := store_all self ops in
  let after := store_waypoint before id cloud in
  _stored_waypoints after !! id = Some cloud /\
  (forall id', id' <> id ->
     _stored_waypoints after !! id' = _stored_waypoints before !! id') /\
  length (fuse (stored_clouds after)) = stored_point_count (_stored_waypoints after) /\
  (forall id' c, _stored_waypoints after !! id' = Some c ->
     exists l1 l2,
       fuse (stored_clouds after) = l1 ++ (fused_point <$> PointCloud.points c) ++ l2) /\
  (forall p,
     coordinates p =
       {| Point32.x := PointXYZRGB.x (fused_point p);
          Point32.y := PointXYZRGB.y (fused_point p);
          Point32.z := PointXYZRGB.z (fused_point p) |} /\
     colour p = (PointXYZRGB.r (fused_point p), PointXYZRGB.g (fused_point p),
                 PointXYZRGB.b (fused_point p))) /\
  stored_point_count (_stored_waypoints after) =
    (stored_point_count (delete id (_stored_waypoints before))
     + length (PointCloud.points cloud))%nat /\
  (forall old, _stored_waypoints before !! id = Some old ->
     (stored_point_count (_stored_waypoints after) + length (PointCloud.points old)
      = stored_point_count (_stored_waypoints before)
        + length (PointCloud.points cloud))%nat) /\
  (Z.of_nat (stored_point_count (_stored_waypoints after)) <= int_max ->
   publish_clouds after =
     Some [EvPublish (fuse (stored_clouds after)) (_frame_id after)]).
Proof.
  intros before after.
  split; [apply lookup_insert_eq|].
  split; [intros id' Hne; by apply lookup_insert_ne|].
  split; [by rewrite length_fuse, stored_clouds_count|].
  split; [intros id' c Hc; by eapply fuse_contains|].
  split; [done|].
  split; [apply stored_point_count_insert|].
  split; [|apply publish_clouds_spec].
  intros old Hold. unfold after. simpl.
  rewrite stored_point_count_insert.
  rewrite (stored_point_count_lookup _ _ _ Hold). lia.
Qed.

End Specification.

(** * The properties at work in the small world *)

Ltac by_evaluation := apply (bool_decide_unpack _); vm_compute; exact I.

Lemma frequencies_without_retained_points_witness :
  acquisition Scenario.world Scenario.l1 Scenario.reqB (Scenario.cloud_of 2)
              Scenario.origin Scenario.voxelsB Scenario.voxelizedB /\
  column_points (retained (_minimum_points Scenario.l1) Scenario.voxelsB) = [] /\
  exists out,
    label_cloud Scenario.world Scenario.l1 Scenario.reqB Response.empty = Some out /\
    returned out = true /\
    Response.label (response out) = [] /\
    Response.label_frequencies (response out) = [S754_nan; S754_nan; S754_nan].
Proof.
  split; [repeat split|]. split; [reflexivity|].
  destruct (frequencies_without_retained_points Scenario.world Scenario.l1
              Scenario.reqB Response.empty (Scenario.cloud_of 2) Scenario.origin
              Scenario.voxelsB Scenario.voxelizedB)
    as (out & Hrun & Hret & Hlabel & _ & _ & Hfreq).
  - repeat split.
  - by_evaluation.
  - reflexivity.
  - exists out. repeat split; assumption.
Defined.


Lemma max_label_of_is_lowest_argmax_witness :
  attains_maximum Scenario.tie_map 0 3 (max_label_of 3 Scenario.tie_map 0) /\
  (forall c, attains_maximum Scenario.tie_map 0 3 c ->
     max_label_of 3 Scenario.tie_map 0 <= c) /\
  max_label_of 3 Scenario.tie_map 0 = 1.
Proof.
  split; [|split; [|reflexivity]].
  - apply (max_label_of_is_lowest_argmax Scenario.tie_map 0 3); [lia|].
    intros c Hc.
    assert (c = 0 \/ c = 1 \/ c = 2) as [->|[->| ->]] by lia; reflexivity.
  - apply (max_label_of_is_lowest_argmax Scenario.tie_map 0 3); [lia|].
    intros c Hc.
    assert (c = 0 \/ c = 1 \/ c = 2) as [->|[->| ->]] by lia; reflexivity.
Defined.

Lemma filter_retains_large_segments_witness :
  acquisition Scenario.world Scenario.l1 Scenario.reqA (Scenario.cloud_of 7)
              Scenario.origin Scenario.voxelsA Scenario.voxelizedA /\
  filter_voxels Scenario.world 3 Scenario.voxelsA 0 =
    (5, [with_features Scenario.world (1, Scenario.segment [0; 1; 2; 3; 4])],
     [EvComputeFeatures 1]) /\
  exists out,
    label_cloud Scenario.world Scenario.l1 Scenario.reqA Response.empty = Some out /\
    length (Response.label (response out)) = 5%nat /\
    length (Response.points (response out)) = 5%nat.
Proof.
  split; [repeat split|].
  pose proof (filter_retains_large_segments Scenario.world Scenario.l1
                Scenario.reqA Response.empty (Scenario.cloud_of 7) Scenario.origin
                Scenario.voxelsA Scenario.voxelizedA) as H.
  cbv zeta in H.
  destruct H as (Hfilter & _ & out & Hrun & Hlabel & _ & Hpoints & _).
  - reflexivity.
  - repeat split.
  - by_evaluation.
  - split; [exact Hfilter|].
    exists out. split; [exact Hrun|]. split.
    + apply Nat2Z.inj. exact Hlabel.
    + rewrite Hpoints. reflexivity.
Defined.

Lemma failed_acquisition_changes_nothing_witness :
  cloud_acquisition Scenario.l1 (PlainCall {| waypoint_id := "nowhere" |}) = None /\
  handle Scenario.world Scenario.l1 (PlainCall {| waypoint_id := "nowhere" |})
         Response.empty
    = Some (failure Scenario.l1 Response.empty).
Proof.
  split; [reflexivity|].
  apply (failed_acquisition_changes_nothing Scenario.world Scenario.l1
           (PlainCall {| waypoint_id := "nowhere" |}) Response.empty).
  left. reflexivity.
Defined.


Lemma handlers_agree_witness :
  cloud_acquisition (with_cloud_service Edge.l1 Edge.instance_client)
                    (InstanceCall Edge.first_instance)
    = cloud_acquisition Edge.l1 (PlainCall Scenario.reqA) /\
  cloud_acquisition Edge.l1 (InstanceCall Edge.first_instance) = None /\
  cloud_acquisition (with_cloud_service Edge.l1 Edge.instance_client)
                    (PlainCall Scenario.reqA) = None /\
  returned <$> label_cloud Scenario.world Edge.l1 Scenario.reqA Response.empty
    = Some true /\
  Plus.label_cloud_plus Scenario.world
    (with_cloud_service Edge.l1 Edge.instance_client) Edge.first_instance
    Response.empty
    = behind Edge.instance_client
        <$> label_cloud Scenario.world Edge.l1 Scenario.reqA Response.empty.
Proof.
  split; [reflexivity|]. split; [reflexivity|]. split; [reflexivity|].
  split; [vm_compute; reflexivity|].
  apply (handlers_agree Scenario.world Edge.l1 Edge.instance_client
           Scenario.reqA Edge.first_instance Response.empty); reflexivity.
Defined.

Lemma response_shapes_witness :
  acquisition Scenario.world Scenario.l1 Scenario.reqA (Scenario.cloud_of 7)
              Scenario.origin Scenario.voxelsA Scenario.voxelizedA /\
  exists out,
    label_cloud Scenario.world Scenario.l1 Scenario.reqA Response.empty = Some out /\
    length (Response.label (response out)) = 5%nat /\
    length (Response.label_probabilities (response out)) = 15%nat /\
    length (Response.label_frequencies (response out)) = 3%nat /\
    length (Response.points (response out)) = 5%nat.
Proof.
  split; [repeat split|].
  pose proof (response_shapes Scenario.world Scenario.l1
                Scenario.reqA Response.empty (Scenario.cloud_of 7) Scenario.origin
                Scenario.voxelsA Scenario.voxelizedA) as H.
  cbv zeta in H.
  destruct H as (_ & out & Hrun & _ & Hl & Hp & _ & Hf & Hpts).
  - reflexivity.
  - repeat split.
  - by_evaluation.
  - exists out. repeat split; assumption.
Defined.

Lemma stored_cloud_keeps_discarded_points_witness :
  acquisition Scenario.world Scenario.l1 Scenario.reqA (Scenario.cloud_of 7)
              Scenario.origin Scenario.voxelsA Scenario.voxelizedA /\
  exists out stored,
    label_cloud Scenario.world Scenario.l1 Scenario.reqA Response.empty = Some out /\
    _stored_waypoints (labeler out) !! "A" = Some stored /\
    length (PointCloud.points stored) = 7%nat /\
    exists p, PointCloud.points stored !! 5%nat = Some p /\ colour p = (0, 0, 0).
Proof.
  split; [repeat split|].
  pose proof (stored_cloud_keeps_discarded_points Scenario.world Scenario.l1
                Scenario.reqA Response.empty (Scenario.cloud_of 7) Scenario.origin
                Scenario.voxelsA Scenario.voxelizedA) as H.
  cbv zeta in H.
  destruct H as (out & stored & Hrun & Hstored & Hlen & _ & _ & Hsmall & _).
  - reflexivity.
  - repeat split.
  - by_evaluation.
  - exists out, stored. split; [exact Hrun|]. split; [exact Hstored|].
    split; [exact Hlen|].
    apply (Hsmall (2, Scenario.segment [5; 6]) 5).
    + unfold Scenario.voxelsA. repeat constructor.
    + by_evaluation.
    + by_evaluation.
    + by_evaluation.
    + by_evaluation.
Defined.

(** ** The scenarios of the specification *)

(** Scenario A: segments of five and two points and a threshold of three
    leave one segment and [N = 5]. *)
Example scenario_A :
  filter_voxels Scenario.world 3 Scenario.voxelsA 0 =
    (5, [with_features Scenario.world (1, Scenario.segment [0; 1; 2; 3; 4])],
     [EvComputeFeatures 1]).
Proof. reflexivity. Qed.

(** Scenario C: a single retained segment with the posterior
    [1/2, 1/4, 1/4] and an inference that keeps the ranking: every point of
    the segment decodes to class 0. *)
Example scenario_C :
  (response <$> label_cloud Scenario.world Scenario.l1 Scenario.reqA Response.empty)
    ≫= (fun r => Some (Response.label r)) = Some [0; 0; 0; 0; 0].
Proof. vm_compute. reflexivity. Qed.

(** Scenario D: ["A"] with three points, then ["B"] with four: seven fused
    points; ["A"] again with two points: six. *)
Example scenario_D :
  let ab := store_all Scenario.l1
              [("A"%string, Scenario.observation_of 3);
               ("B"%string, Scenario.observation_of 4)] in
  length (fuse (stored_clouds ab)) = 7%nat /\
  length (fuse (stored_clouds
                  (store_waypoint ab "A" (Scenario.observation_of 2)))) = 6%nat.
Proof. split; vm_compute; reflexivity. Qed.

(** Scenario E: an unknown identifier: the handler returns [false] and the
    map store has no entry for it. *)
Example scenario_E :
  exists out,
    label_cloud Scenario.world Scenario.l1 {| waypoint_id := "nowhere" |}
                Response.empty = Some out /\
    returned out = false /\
    _stored_waypoints (labeler out) !! "nowhere" = None.
Proof. eexists. split; [reflexivity|]. split; reflexivity. Qed.

(** The origin service fails after the cloud service answered: the handler
    returns [false], stores nothing and keeps its frame identifier. *)
Example scenario_origin_failure :
  label_cloud Scenario.world Scenario.l1 {| waypoint_id := "C" |} Response.empty
    = Some (failure Scenario.l1 Response.empty).
Proof. reflexivity. Qed.

(** * Further properties of the code *)

(** ** The decoder on any column *)

Lemma gtb_nan_r (x y : float) : Float32.is_nan y = true -> Float32.gtb x y = false.
Proof.
  unfold Float32.gtb, Float32.is_nan.
  destruct y; try discriminate. intros _. by destruct x.
Qed.

Lemma gtb_not_nan (x y : float) : Float32.gtb x y = true -> Float32.is_nan x = false.
Proof. unfold Float32.gtb. by destruct x. Qed.

Lemma max_label_search_range (map : MatrixXf.t) (j : Z) (n : nat) (k : Z)
    (acc : Z * float) :
  1 <= k -> 0 <= acc.1 < k ->
  0 <= (fold_left (max_label_step map j) (seqZ k (Z.of_nat n)) acc).1
    < k + Z.of_nat n.
Proof.
  revert k acc. induction n as [|n IH]; intros k acc Hk Hacc.
  - simpl. lia.
  - rewrite seqZ_cons by lia. simpl fold_left.
    replace (Z.pred (Z.of_nat (S n))) with (Z.of_nat n) by lia.
    replace (k + Z.of_nat (S n)) with (Z.succ k + Z.of_nat n) by lia.
    apply IH; [lia|]. unfold max_label_step.
    destruct (Float32.gtb _ _); simpl; lia.
Qed.

(** The search holds the probability of the class it holds, and moves to a
    class only for a probability that is a number. *)
Lemma max_label_search_number (map : MatrixXf.t) (j : Z) (l : list Z)
    (acc : Z * float) :
  acc.2 = MatrixXf.coeff map acc.1 j ->
  (acc.1 = 0 \/ Float32.is_nan acc.2 = false) ->
  let acc' := fold_left (max_label_step map j) l acc in
  acc'.2 = MatrixXf.coeff map acc'.1 j /\
  (acc'.1 = 0 \/ Float32.is_nan acc'.2 = false).
Proof.
  revert acc. induction l as [|c l IH]; intros acc Hp Hacc; [done|].
  simpl. apply IH; unfold max_label_step;
    destruct (Float32.gtb _ _) eqn:Hgt; simpl; auto.
  right. by apply gtb_not_nan in Hgt.
Qed.

(** Nothing compares greater than NaN. *)
Lemma max_label_search_stuck (map : MatrixXf.t) (j : Z) (l : list Z)
    (acc : Z * float) :
  Float32.is_nan acc.2 = true ->
  fold_left (max_label_step map j) l acc = acc.
Proof.
  intros Hnan. induction l as [|c l IH]; [done|].
  simpl. unfold max_label_step at 2. by rewrite gtb_nan_r.
Qed.

(** X1: with at least one class, whatever the column holds, NaN included,
    the decoded label is a class index in [0 .. C-1], and a class other
    than 0 is decoded only for a probability that is a number. *)
Theorem max_label_of_in_range (C : Z) (map : MatrixXf.t) (j : Z) :
  0 < C ->
  0 <= max_label_of C map j < C /\
  (max_label_of C map j = 0 \/
   Float32.is_nan (MatrixXf.coeff map (max_label_of C map j) j) = false).
Proof.
  intros HC. unfold max_label_of. split.
  - pose proof (max_label_search_range map j (Z.to_nat (C - 1)) 1
                  (0, MatrixXf.coeff map 0 j)) as H.
    rewrite Z2Nat.id in H by lia. simpl in H. lia.
  - destruct (max_label_search_number map j (seqZ 1 (C - 1))
                (0, MatrixXf.coeff map 0 j)) as [Hp H]; [done|by left|].
    rewrite <- Hp. exact H.
Qed.

(** X2: when the probability of class 0 is NaN the decoder answers class 0,
    whatever the other classes hold: [max_prob] starts as NaN and no
    comparison with it succeeds. *)
Theorem max_label_of_nan_first (C : Z) (map : MatrixXf.t) (j : Z) :
  Float32.is_nan (MatrixXf.coeff map 0 j) = true ->
  max_label_of C map j = 0.
Proof.
  intros Hnan. unfold max_label_of.
  by rewrite max_label_search_stuck.
Qed.

(** ** The conversion of the colours *)

(** X3: the conversion to Lab keeps the sensor origin, the number of points,
    and of every point the coordinates and the alpha value; the three colour
    bytes of a point are replaced by the converted pixel built from its
    [b, g, r], channel 0 into [b], 1 into [g] and 2 into [r]. *)
Theorem convert_to_lab_pointwise (W : Collaborators) (cloud : PointCloud.t) :
  PointCloud.sensor_origin_ (convert_to_lab W cloud) = PointCloud.sensor_origin_ cloud /\
  length (PointCloud.points (convert_to_lab W cloud)) = length (PointCloud.points cloud) /\
  forall (i : nat) (p : PointXYZRGBA.t),
    PointCloud.points cloud !! i = Some p ->
    exists q,
      PointCloud.points (convert_to_lab W cloud) !! i = Some q /\
      coordinates q = coordinates p /\
      PointXYZRGBA.a q = PointXYZRGBA.a p /\
      (PointXYZRGBA.b q, PointXYZRGBA.g q, PointXYZRGBA.r q) =
        cvtColor_BGR2Lab W (PointXYZRGBA.b p, PointXYZRGBA.g p, PointXYZRGBA.r p).
Proof.
  unfold convert_to_lab. split; [done|].
  rewrite <- list_fmap_compose. simpl.
  rewrite zip_with_fmap_r, zip_with_diag.
  split; [by rewrite length_fmap|].
  intros i p Hp. rewrite list_lookup_fmap, Hp. simpl.
  eexists. split; [reflexivity|].
  destruct (cvtColor_BGR2Lab W _) as [[c0 c1] c2]. done.
Qed.

(** ** The threshold of the filter *)

Lemma sum_sizes_sublist (l l' : list (Z * Voxel)) :
  sublist l l' -> sum_sizes l <= sum_sizes l'.
Proof.
  induction 1 as [|kv l l' H IH|kv l l' H IH]; simpl; [lia|lia|].
  unfold getSize. lia.
Qed.

Lemma retained_nested (m m' : Z) (voxels : list (Z * Voxel)) :
  m <= m' -> retained m' voxels = retained m' (retained m voxels).
Proof.
  intros Hm. unfold retained. rewrite list_filter_filter. apply list_filter_iff.
  intros kv. unfold large_enough. lia.
Qed.

Lemma retained_all (m : Z) (voxels : list (Z * Voxel)) :
  m <= 0 -> retained m voxels = voxels.
Proof.
  intros Hm. unfold retained. induction voxels as [|kv l IH]; [done|].
  rewrite filter_cons_True, IH; [done|]. unfold large_enough, getSize. lia.
Qed.

(** X4: a higher threshold never retains more: the segments, the calls of
    [computeFeatures] and the count [N] of the filter loop under the higher
    threshold are taken from those under the lower one, in the same order.
    A threshold of zero or less drops no segment, the empty ones included.
    The retained points can be counted in an [int]. *)
Theorem higher_threshold_retains_less (W : Collaborators) (m m' : Z)
    (voxels : list (Z * Voxel)) (N0 : Z) :
  m <= m' -> 0 <= N0 ->
  N0 + sum_sizes (retained m voxels) <= int_max ->
  let low := filter_voxels W m voxels N0 in
  let high := filter_voxels W m' voxels N0 in
  N0 <= high.1.1 <= low.1.1 /\
  sublist high.1.2 low.1.2 /\
  sublist high.2 low.2 /\
  (m <= 0 -> low.1.2 = with_features W <$> voxels).
Proof.
  intros Hm HN0 Hfit.
  assert (sublist (retained m' voxels) (retained m voxels)) as Hsub
    by (rewrite (retained_nested m m') by done; apply sublist_filter).
  pose proof (sum_sizes_sublist _ _ Hsub) as Hle.
  pose proof (sum_sizes_nonneg (retained m' voxels)) as Hpos.
  cbv zeta. rewrite !(filter_voxels_retained W) by lia. simpl.
  split; [lia|].
  split; [by apply fmap_sublist|]. split; [by apply fmap_sublist|].
  intros Hm0. by rewrite retained_all.
Qed.

(** ** More on one request *)

Section HandlerClosedForms.

Variable W : Collaborators.
Variable self : Labeler.

(** The closed form of [label_cloud_plus]: the outcome of the plain request
    for the same waypoint, from the answer to the instance request. *)
Lemma label_cloud_plus_spec (req : InstanceRequest.t) (res : Response.t)
    (msg : PointCloud2) (origin : SensorOrigin) (voxels : list (Z * Voxel))
    (voxelized_cloud : PointCloud.t) :
  instance_acquisition W self req msg origin voxels voxelized_cloud ->
  request_fits self (InstanceRequest.waypoint_id req)
               (retained (_minimum_points self) voxels) voxelized_cloud ->
  Plus.label_cloud_plus W self req res =
    Some (success W self (waypoint_of req) msg voxels voxelized_cloud).
Proof.
  intros (Hcloud & Horigin & Hextract) Hfits.
  unfold Plus.label_cloud_plus. rewrite Hcloud, Horigin.
  fold (acquired_cloud msg origin).
  change (Plus.label_acquired_cloud W ?s req res ?c)
    with (label_acquired_cloud W s (waypoint_of req) res c).
  rewrite (label_acquired_cloud_spec W (set_frame_id self (header_frame_id msg))
             (waypoint_of req) res (acquired_cloud msg origin) voxels
             voxelized_cloud Hextract Hfits).
  unfold success, painted_cloud.
  rewrite (inferred_map_ext W self), (paint_ext self) by done. reflexivity.
Qed.

Lemma lookup_class_column (Cn : nat) (map : MatrixXf.t) (j : Z) (c : nat) :
  (c < Cn)%nat ->
  class_column (Z.of_nat Cn) map j !! c = Some (MatrixXf.coeff map (Z.of_nat c) j).
Proof.
  intros Hc. unfold class_column.
  rewrite list_lookup_fmap, lookup_seqZ_lt by lia. simpl. do 2 f_equal.
Qed.

Lemma lookup_summed (map : MatrixXf.t) (freq : list float) (j n c : nat)
    (f0 : float) :
  (c < Z.to_nat (_C self))%nat -> freq !! c = Some f0 ->
  summed self map freq j n !! c =
    Some (fold_left
            (fun total j' =>
               Float32.add total (MatrixXf.coeff map (Z.of_nat c) (Z.of_nat j')))
            (seq j n) f0).
Proof.
  intros Hc. unfold summed.
  revert freq f0 j. induction n as [|n IH]; intros freq f0 j Hf0; [done|].
  cbn [seq fold_left]. apply IH.
  rewrite lookup_zip_with, Hf0. simpl.
  rewrite <- (Z2Nat.id (_C self)) by lia.
  by rewrite lookup_class_column.
Qed.

(** A labeler that already holds a cloud of the waypoint answers as the one
    before that cloud was stored. *)
Lemma success_replayed (other : Labeler) (req : Request) (msg : PointCloud2)
    (voxels : list (Z * Voxel)) (voxelized_cloud : PointCloud.t)
    (frame_id : string) (old : PointCloud.t) :
  other = store_waypoint (set_frame_id self frame_id) (waypoint_id req) old ->
  success W other req msg voxels voxelized_cloud =
    success W self req msg voxels voxelized_cloud.
Proof.
  intros ->. unfold success.
  cbn [_minimum_points _label_converter _C store_waypoint set_frame_id].
  rewrite (inferred_map_ext W self) by done.
  set (map := inferred_map W self _ _).
  assert (painted_cloud (store_waypoint (set_frame_id self frame_id)
                           (waypoint_id req) old) map voxelized_cloud
            (retained (_minimum_points self) voxels)
          = painted_cloud self map voxelized_cloud
              (retained (_minimum_points self) voxels)) as ->.
  { unfold painted_cloud. by rewrite (paint_ext self). }
  set (cloud := painted_cloud self map voxelized_cloud _).
  assert (store_waypoint
            (set_frame_id (store_waypoint (set_frame_id self frame_id)
                             (waypoint_id req) old) (header_frame_id msg))
            (waypoint_id req) cloud
          = store_waypoint (set_frame_id self (header_frame_id msg))
              (waypoint_id req) cloud) as ->.
  { unfold store_waypoint, set_frame_id. simpl. by rewrite insert_insert_eq. }
  reflexivity.
Qed.

End HandlerClosedForms.

(** ** Indices that the segmentation must keep inside the cloud *)

Section Bounds.

Variable W : Collaborators.
Variable self : Labeler.

Lemma filter_voxels_kept (m : Z) (voxels : list (Z * Voxel)) (N0 : Z) :
  (filter_voxels W m voxels N0).1.2 = with_features W <$> retained m voxels.
Proof.
  unfold retained. revert N0.
  induction voxels as [|[id v] l IH]; intros N0; [done|].
  simpl. rewrite filter_cons. unfold large_enough at 1. simpl.
  destruct (decide (getSize v >= m)) as [H|H].
  - specialize (IH (wrap_int (N0 + getSize v))).
    destruct (filter_voxels W m l _) as [[N' kept] evs]. simpl in *.
    by rewrite IH.
  - apply IH.
Qed.

Lemma vector_update_outside {A} (v : list A) (i : Z) (f : A -> A) :
  ~ (0 <= i < Z.of_nat (length v)) -> vector_update v i f = None.
Proof.
  intros Hi. unfold vector_update, vector_get.
  destruct (decide (0 <= i)); [|done].
  by rewrite lookup_ge_None_2 by lia.
Qed.

Lemma length_vector_update {A} (v v' : list A) (i : Z) (f : A -> A) :
  vector_update v i f = Some v' -> length v' = length v.
Proof.
  unfold vector_update. destruct (vector_get v i); [|done].
  intros [= <-]. apply length_insert.
Qed.

Lemma decode_point_length (map : MatrixXf.t) (d d' : Decoding) (i : Z) :
  decode_point self map d i = Some d' ->
  length (cloud_points d') = length (cloud_points d).
Proof.
  unfold decode_point.
  destruct (labelToRgb _ _) as [[r g] b].
  destruct (vector_update (cloud_points d) i _) as [cp|] eqn:Hcp; [|done]. simpl.
  destruct (vector_set _ _ _); [|done]. simpl.
  destruct (for_each _ _ _) as [[[rp lf] pi]|]; [|done]. simpl.
  intros [= <-]. simpl. by eapply length_vector_update.
Qed.

Lemma decode_points_outside (map : MatrixXf.t) (indices : list Z) (d : Decoding) :
  Exists (fun i => ~ (0 <= i < Z.of_nat (length (cloud_points d)))) indices ->
  for_each (decode_point self map) indices d = None.
Proof.
  intros Hbad. revert d Hbad.
  induction indices as [|i l IH]; intros d Hbad; [by apply Exists_nil in Hbad|].
  rewrite for_each_cons.
  destruct (decode_point self map d i) as [d'|] eqn:Hd; [|done]. simpl.
  apply Exists_cons in Hbad as [Hi|Hl].
  - unfold decode_point in Hd.
    destruct (labelToRgb _ _) as [[r g] b].
    by rewrite vector_update_outside in Hd.
  - apply IH. by rewrite (decode_point_length _ _ _ _ Hd).
Qed.

End Bounds.

Section Requests.

Variable W : Collaborators.
Variable self : Labeler.

(** X5: after a successful request the frequency of class [c] is the sum of
    the probabilities of [c] over all [N] columns, added in column order
    starting from zero, divided by [float(N)].
    There is at least one class. *)
Theorem frequencies_are_column_means (req : Request) (res : Response.t)
    (msg : PointCloud2) (origin : SensorOrigin) (voxels : list (Z * Voxel))
    (voxelized_cloud : PointCloud.t) :
  0 < _C self ->
  acquisition W self req msg origin voxels voxelized_cloud ->
  request_fits self (waypoint_id req)
               (retained (_minimum_points self) voxels) voxelized_cloud ->
  let kept := retained (_minimum_points self) voxels in
  let n := length (column_points kept) in
  let map := inferred_map W self (with_features W <$> kept) (Z.of_nat n) in
  exists out,
    label_cloud W self req res = Some out /\
    forall c : nat, (c < Z.to_nat (_C self))%nat ->
      Response.label_frequencies (response out) !! c =
        Some (Float32.div (class_total map (Z.of_nat c) n)
                          (Float32.of_int (Z.of_nat n))).
Proof.
  intros HCpos Hacq Hfits kept n map.
  exists (success W self req msg voxels voxelized_cloud).
  split; [by eapply label_cloud_spec|].
  intros c Hc. unfold success. cbn [response Response.label_frequencies].
  unfold decoded_frequencies. rewrite list_lookup_fmap.
  rewrite (lookup_summed self _ _ 0 _ c Float32.zero Hc)
    by (apply lookup_replicate_2; lia).
  reflexivity.
Qed.

(** X6: a successful request overwrites the whole response: what the
    response object held before the call, its points included, has no
    influence on the outcome.
    There is at least one class. *)
Theorem response_is_overwritten (req : Request) (res res' : Response.t)
    (msg : PointCloud2) (origin : SensorOrigin) (voxels : list (Z * Voxel))
    (voxelized_cloud : PointCloud.t) :
  0 < _C self ->
  acquisition W self req msg origin voxels voxelized_cloud ->
  request_fits self (waypoint_id req)
               (retained (_minimum_points self) voxels) voxelized_cloud ->
  exists out,
    label_cloud W self req res = Some out /\
    label_cloud W self req res' = Some out /\
    returned out = true.
Proof.
  intros HCpos Hacq Hfits.
  exists (success W self req msg voxels voxelized_cloud).
  split; [by eapply label_cloud_spec|].
  split; [by eapply label_cloud_spec|done].
Qed.

(** X7: a successful request changes two things of the labeler and nothing
    else: the frame identifier becomes the frame of the acquired cloud, and
    the entry of the requested waypoint becomes a cloud with the sensor
    origin and the coordinates of the voxelized cloud.  The entries of all
    other waypoints stay, and the last event is the publication of the fused
    cloud under the new frame identifier.
    There is at least one class. *)
Theorem request_changes_one_entry (req : Request) (res : Response.t)
    (msg : PointCloud2) (origin : SensorOrigin) (voxels : list (Z * Voxel))
    (voxelized_cloud : PointCloud.t) :
  0 < _C self ->
  acquisition W self req msg origin voxels voxelized_cloud ->
  request_fits self (waypoint_id req)
               (retained (_minimum_points self) voxels) voxelized_cloud ->
  exists out cloud,
    label_cloud W self req res = Some out /\
    labeler out =
      store_waypoint (set_frame_id self (header_frame_id msg))
                     (waypoint_id req) cloud /\
    _frame_id (labeler out) = header_frame_id msg /\
    _stored_waypoints (labeler out) !! waypoint_id req = Some cloud /\
    (forall id, id <> waypoint_id req ->
       _stored_waypoints (labeler out) !! id = _stored_waypoints self !! id) /\
    PointCloud.sensor_origin_ cloud = PointCloud.sensor_origin_ voxelized_cloud /\
    coordinates <$> PointCloud.points cloud =
      coordinates <$> PointCloud.points voxelized_cloud /\
    last (events out) =
      Some (EvPublish (fuse (stored_clouds (labeler out))) (header_frame_id msg)).
Proof.
  intros HCpos Hacq Hfits.
  eexists (success W self req msg voxels voxelized_cloud), _.
  split; [by eapply label_cloud_spec|].
  unfold success. cbn [labeler events].
  split; [reflexivity|]. split; [reflexivity|].
  split; [apply lookup_insert_eq|].
  split; [intros id Hid; by apply lookup_insert_ne|].
  split; [reflexivity|].
  split.
  - unfold painted_cloud. cbn [PointCloud.points PointCloud.with_points].
    rewrite (paint_invariant self _ coordinates) by done.
    unfold paint_black. rewrite <- list_fmap_compose. reflexivity.
  - rewrite app_comm_cons, !app_assoc.
    change [?a; ?b] with ([a] ++ [b]). rewrite app_assoc. apply last_snoc.
Qed.

(** X8: a request is idempotent: when the labeler that a successful request
    leaves behind handles the same request again, with the services and the
    segmentation answering as before, the outcome is the same in every
    part, the labeler with its stored clouds included.
    There is at least one class. *)
Theorem repeated_request_is_idempotent (req : Request) (res res' : Response.t)
    (msg : PointCloud2) (origin : SensorOrigin) (voxels : list (Z * Voxel))
    (voxelized_cloud : PointCloud.t) :
  0 < _C self ->
  acquisition W self req msg origin voxels voxelized_cloud ->
  request_fits self (waypoint_id req)
               (retained (_minimum_points self) voxels) voxelized_cloud ->
  exists out,
    label_cloud W self req res = Some out /\
    label_cloud W (labeler out) req res' = Some out.
Proof.
  intros HCpos Hacq Hfits.
  exists (success W self req msg voxels voxelized_cloud).
  split; [by eapply label_cloud_spec|].
  set (other := labeler (success W self req msg voxels voxelized_cloud)).
  rewrite (label_cloud_spec W other req res' msg origin voxels voxelized_cloud).
  - f_equal. by eapply success_replayed.
  - exact Hacq.
  - destruct Hfits as (HC & Hn & HnC & Hvalid & Hstored).
    repeat split; try assumption.
    unfold other, success. cbn [labeler _stored_waypoints store_waypoint].
    by rewrite insert_insert_eq.
Qed.

(** X9: the calls of a successful request come in this order: the
    segmentation; [computeFeatures] for every retained segment, in map
    order; the forest for every retained segment, in the same order and on
    the features just computed; one inference on [N] columns and [C]
    classes; one publication, under the frame of the acquired cloud.
    There is at least one class. *)
Theorem events_in_order (req : Request) (res : Response.t)
    (msg : PointCloud2) (origin : SensorOrigin) (voxels : list (Z * Voxel))
    (voxelized_cloud : PointCloud.t) :
  0 < _C self ->
  acquisition W self req msg origin voxels voxelized_cloud ->
  request_fits self (waypoint_id req)
               (retained (_minimum_points self) voxels) voxelized_cloud ->
  let kept := retained (_minimum_points self) voxels in
  exists out,
    label_cloud W self req res = Some out /\
    events out =
      [EvExtractVoxels]
        ++ ((fun kv => EvComputeFeatures kv.1) <$> kept)
        ++ ((fun kv => EvClassLogPosterior kv.1 (feature_extraction W kv.2)) <$> kept)
        ++ [EvInference (sum_sizes kept) (_C self);
            EvPublish (fuse (stored_clouds (labeler out))) (header_frame_id msg)].
Proof.
  intros HCpos Hacq Hfits kept.
  exists (success W self req msg voxels voxelized_cloud).
  split; [by eapply label_cloud_spec|].
  unfold success. cbn [events labeler]. fold kept.
  rewrite <- list_fmap_compose, sum_sizes_column_points. reflexivity.
Qed.

(** X10: when every segment is below the threshold the request still
    succeeds: no feature is computed and the forest is not asked, the
    inference runs once on zero columns, and the voxelized cloud is stored
    and published with every point black. *)
Theorem nothing_retained (req : Request) (res : Response.t)
    (msg : PointCloud2) (origin : SensorOrigin) (voxels : list (Z * Voxel))
    (voxelized_cloud : PointCloud.t) :
  acquisition W self req msg origin voxels voxelized_cloud ->
  Forall (fun kv => getSize kv.2 < _minimum_points self) voxels ->
  0 <= _C self ->
  Z.of_nat (stored_point_count
              (<[waypoint_id req := voxelized_cloud]> (_stored_waypoints self)))
    <= int_max ->
  exists out,
    label_cloud W self req res = Some out /\
    returned out = true /\
    _stored_waypoints (labeler out) !! waypoint_id req =
      Some (all_black voxelized_cloud) /\
    events out =
      [EvExtractVoxels; EvInference 0 (_C self);
       EvPublish (fuse (stored_clouds (labeler out))) (header_frame_id msg)].
Proof.
  intros Hacq Hsmall HC Hstored.
  assert (retained (_minimum_points self) voxels = []) as Hnone.
  { clear Hacq. unfold retained. induction Hsmall as [|kv l Hkv _ IH]; [done|].
    rewrite filter_cons, decide_False; [exact IH|].
    unfold large_enough. lia. }
  exists (success W self req msg voxels voxelized_cloud).
  split.
  - eapply label_cloud_spec; [exact Hacq|]. rewrite Hnone.
    repeat split; simpl; try lia; try done.
  - unfold success. cbn [returned labeler events]. rewrite Hnone.
    split; [done|]. split; [apply lookup_insert_eq|]. reflexivity.
Qed.

(** X11: the handler does not check the member indices of the segments:
    when a retained segment names a position outside of the voxelized cloud,
    the decoding loop writes outside of [voxelized_cloud->points] and the
    request has no defined result. *)
Theorem member_index_outside_the_cloud (req : Request) (res : Response.t)
    (msg : PointCloud2) (origin : SensorOrigin) (voxels : list (Z * Voxel))
    (voxelized_cloud : PointCloud.t) :
  acquisition W self req msg origin voxels voxelized_cloud ->
  Exists (outside voxelized_cloud)
         (column_points (retained (_minimum_points self) voxels)) ->
  label_cloud W self req res = None.
Proof.
  intros (Hcloud & Horigin & Hextract) Hbad.
  unfold label_cloud. rewrite Hcloud, Horigin.
  fold (acquired_cloud msg origin).
  unfold label_acquired_cloud.
  cbn [_dl _minimum_points _conf _C set_frame_id].
  rewrite Hextract.
  pose proof (filter_voxels_kept W (_minimum_points self) voxels 0) as Hkept.
  destruct (filter_voxels W _ voxels 0) as [[N kept] ev_features].
  simpl in Hkept. subst kept.
  destruct (build_crf_mats W _ _ _ _ _ _ _) as [[mats pi] ev_forest].
  destruct (vector_new (wrap_int _) _); [|done]. simpl.
  destruct (vector_new N 0); [|done]. simpl.
  destruct (vector_new (_C self) _); [|done]. simpl.
  unfold decode_voxels. rewrite for_each_nested.
  fold (column_points (with_features W <$> retained (_minimum_points self) voxels)).
  rewrite column_points_with_features.
  rewrite decode_points_outside; [done|].
  simpl. unfold paint_black. rewrite length_map. exact Hbad.
Qed.

(** X12: the instance number is no part of the key of the store.  When two
    instances of one waypoint are labelled one after the other, the cloud
    of the second replaces the cloud of the first: the outcome of the second
    request, the store included, is the one it has without the first.
    There is at least one class. *)
Theorem instance_number_is_not_a_key (req1 req2 : InstanceRequest.t)
    (res1 res2 : Response.t) (msg1 msg2 : PointCloud2)
    (origin1 origin2 : SensorOrigin) (voxels1 voxels2 : list (Z * Voxel))
    (voxelized1 voxelized2 : PointCloud.t) :
  0 < _C self ->
  InstanceRequest.waypoint_id req1 = InstanceRequest.waypoint_id req2 ->
  instance_acquisition W self req1 msg1 origin1 voxels1 voxelized1 ->
  request_fits self (InstanceRequest.waypoint_id req1)
               (retained (_minimum_points self) voxels1) voxelized1 ->
  instance_acquisition W self req2 msg2 origin2 voxels2 voxelized2 ->
  request_fits self (InstanceRequest.waypoint_id req2)
               (retained (_minimum_points self) voxels2) voxelized2 ->
  exists out1 out2 cloud2,
    Plus.label_cloud_plus W self req1 res1 = Some out1 /\
    Plus.label_cloud_plus W (labeler out1) req2 res2 = Some out2 /\
    Plus.label_cloud_plus W self req2 res2 = Some out2 /\
    _stored_waypoints (labeler out2) =
      <[InstanceRequest.waypoint_id req2 := cloud2]> (_stored_waypoints self) /\
    length (PointCloud.points cloud2) = length (PointCloud.points voxelized2).
Proof.
  intros HCpos Hid Hacq1 Hfits1 Hacq2 Hfits2.
  eexists (success W self (waypoint_of req1) msg1 voxels1 voxelized1),
          (success W self (waypoint_of req2) msg2 voxels2 voxelized2), _.
  split; [by eapply label_cloud_plus_spec|].
  split; [|split; [by eapply label_cloud_plus_spec|]].
  - set (other := labeler (success W self (waypoint_of req1) msg1 voxels1 voxelized1)).
    rewrite (label_cloud_plus_spec W other req2 res2 msg2 origin2 voxels2 voxelized2).
    + f_equal. eapply success_replayed.
      unfold other, success. cbn [labeler waypoint_of waypoint_id].
      rewrite Hid. reflexivity.
    + exact Hacq2.
    + destruct Hfits2 as (HC & Hn & HnC & Hvalid & Hstored).
      repeat split; try assumption.
      unfold other, success.
      cbn [labeler _stored_waypoints store_waypoint waypoint_of waypoint_id].
      rewrite Hid. by rewrite insert_insert_eq.
  - unfold success. cbn [labeler _stored_waypoints store_waypoint].
    split; [reflexivity|].
    unfold painted_cloud. cbn [PointCloud.points PointCloud.with_points].
    rewrite length_paint. unfold paint_black. by rewrite length_map.
Qed.

End Requests.

(** ** The order of the store *)

Lemma stored_order_total : Total stored_order.
Proof. intros e1 e2. apply String.leb_total. Qed.

Lemma leb_ne_ltb (s1 s2 : string) :
  String.leb s1 s2 = true -> s1 <> s2 -> String.ltb s1 s2 = true.
Proof.
  unfold String.leb, String.ltb. intros Hle Hne.
  destruct (String.compare s1 s2) eqn:Hc; try done.
  by apply String.compare_eq_iff in Hc.
Qed.

Lemma Sorted_strict (l : list (string * PointCloud.t)) :
  NoDup l.*1 -> Sorted stored_order l -> Sorted key_below l.
Proof.
  intros Hnd Hs. induction Hs as [|e l Hs IH Hhd]; [constructor|].
  rewrite fmap_cons in Hnd. apply NoDup_cons in Hnd as [Hnotin Hnd].
  constructor; [by apply IH|].
  destruct Hhd as [|e' l' Hle]; constructor.
  apply leb_ne_ltb; [exact Hle|].
  intros Heq. apply Hnotin. rewrite Heq, fmap_cons. apply list_elem_of_here.
Qed.

Lemma store_all_permutation (ops ops' : list (string * PointCloud.t)) :
  ops ≡ₚ ops' -> NoDup ops.*1 ->
  forall s, store_all s ops = store_all s ops'.
Proof.
  unfold store_all.
  induction 1 as [|x l l' Hp IH|x y l|l l' l'' Hp IH Hp' IH']; intros Hnd s.
  - done.
  - simpl. rewrite fmap_cons in Hnd. apply NoDup_cons in Hnd as [_ Hnd]. by apply IH.
  - simpl. f_equal. rewrite !fmap_cons in Hnd.
    apply NoDup_cons in Hnd as [Hy _].
    unfold store_waypoint. simpl. f_equal.
    apply insert_insert_ne. intros Heq. apply Hy. rewrite Heq. apply list_elem_of_here.
  - rewrite IH by done. apply IH'. by rewrite <- Hp.
Qed.

(** X13: [publish_clouds] visits the stored clouds in strictly increasing
    order of their identifiers, every entry of the store once, and the fused
    cloud is the concatenation of their points in that order. *)
Theorem fused_cloud_is_ordered_by_identifier (self : Labeler) :
  Sorted key_below (stored_clouds self) /\
  stored_clouds self ≡ₚ map_to_list (_stored_waypoints self) /\
  fuse (stored_clouds self) =
    stored_clouds self ≫= (fun e => fused_point <$> PointCloud.points e.2).
Proof.
  split; [|split; [apply stored_clouds_Permutation | apply fuse_concat]].
  apply Sorted_strict.
  - rewrite stored_clouds_Permutation. apply NoDup_fst_map_to_list.
  - apply (@Sorted_merge_sort _ _ _ stored_order_total).
Qed.

(** X14: the order in which clouds of different waypoints arrive leaves no
    trace: storing the same clouds in another order gives the same labeler
    and the same fused cloud. *)
Theorem arrival_order_is_forgotten (self : Labeler)
    (ops ops' : list (string * PointCloud.t)) :
  NoDup ops.*1 -> ops ≡ₚ ops' ->
  store_all self ops = store_all self ops' /\
  fuse (stored_clouds (store_all self ops)) =
    fuse (stored_clouds (store_all self ops')).
Proof.
  intros Hnd Hp.
  assert (store_all self ops = store_all self ops') as Heq
    by by apply store_all_permutation.
  by rewrite Heq.
Qed.

(** ** The process *)

Section Process.

Variable env : Startup.
Variables client_get_cloud_plus client_get_cloud client_cloud_origin : ServiceClient.

(** X15: [main] returns 1 when it is started without an argument, and when
    the forest file named by the second argument cannot be opened: the
    exception of the constructor is caught and no service is advertised. *)
Theorem main_gives_up_with_one (argv : list string) :
  (length argv < 2)%nat \/
  (exists config_file forest_file,
     argv !! 1%nat = Some config_file /\ argv !! 2%nat = Some forest_file /\
     forest_read env forest_file = None) ->
  main env client_get_cloud_plus client_get_cloud client_cloud_origin argv
    = Some (Exit 1).
Proof.
  unfold main. intros [Hlen|(config_file & forest_file & H1 & H2 & Hforest)].
  - by rewrite decide_True by lia.
  - apply lookup_lt_Some in H2 as Hlen.
    rewrite decide_False by lia. rewrite H1, H2. simpl.
    unfold Labeler_constructor. rewrite Hforest.
    destruct (Config_load env config_file) as [conf|]; [|done].
    by destruct (DataLoader_make env conf).
Qed.

(** X16: the check [argc < 2] lets a start with the configuration file as
    the only argument through.  [argv[2]] is then the null pointer that
    ends the arguments; the forest path is built from it inside the [try]
    block, the exception is caught, and [main] returns 1 without a usage
    message and before any service is advertised. *)
Theorem main_reads_past_one_argument (argv : list string) :
  length argv = 2%nat ->
  main env client_get_cloud_plus client_get_cloud client_cloud_origin argv
    = Some (Exit 1).
Proof.
  intros Hlen. unfold main. rewrite decide_False by lia.
  destruct (lookup_lt_is_Some_2 argv 1%nat ltac:(lia)) as [config_file H1].
  rewrite H1. simpl.
  by rewrite lookup_ge_None_2 by lia.
Qed.

(** X17: when [main] comes to spin it was given two arguments or more, the
    configuration was loaded, the data loader built and the forest file
    opened.  The two labelers are built from that one configuration, data
    loader and forest, with no stored cloud and an empty frame identifier;
    [l1] asks the plain cloud service, [l2] the instance service, and both
    the one origin service. *)
Theorem main_spins_with_two_fresh_labelers (argv : list string) (node : Node.t) :
  main env client_get_cloud_plus client_get_cloud client_cloud_origin argv
    = Some (Spinning node) ->
  exists config_file forest_file conf dl forest,
    argv !! 1%nat = Some config_file /\ argv !! 2%nat = Some forest_file /\
    Config_load env config_file = Some conf /\
    DataLoader_make env conf = Some dl /\
    forest_read env forest_file = Some forest /\
    node =
      {| Node.l1 := Labeler_new conf dl forest client_get_cloud client_cloud_origin;
         Node.l2 :=
           Labeler_new conf dl forest client_get_cloud_plus client_cloud_origin |} /\
    _stored_waypoints (Node.l1 node) = ∅ /\ _stored_waypoints (Node.l2 node) = ∅.
Proof.
  unfold main, Labeler_constructor.
  destruct (decide _); [done|].
  destruct (argv !! 1%nat) as [config_file|]; [|done]. simpl.
  destruct (argv !! 2%nat) as [forest_file|]; [|done].
  destruct (Config_load env config_file) as [conf|] eqn:Hconf; [|done].
  destruct (DataLoader_make env conf) as [dl|] eqn:Hdl; [|done].
  destruct (forest_read env forest_file) as [forest|] eqn:Hforest; [|done].
  intros [= <-]. by exists config_file, forest_file, conf, dl, forest.
Qed.

End Process.

Section Services.

Variable W : Collaborators.

(** X18: the two services keep separate stores.  A request of the plain
    service changes the store of [l1] only and a request of the instance
    service the store of [l2] only, and what a request publishes on the
    common topic is the fusion of the store of its own labeler: the clouds
    labelled through the other service are not in it.
    Both labelers have at least one class. *)
Theorem services_keep_separate_stores (node : Node.t) (req : Request)
    (reqp : InstanceRequest.t) (res res' : Response.t)
    (msg msg' : PointCloud2) (origin origin' : SensorOrigin)
    (voxels voxels' : list (Z * Voxel)) (voxelized voxelized' : PointCloud.t) :
  0 < _C (Node.l1 node) -> 0 < _C (Node.l2 node) ->
  acquisition W (Node.l1 node) req msg origin voxels voxelized ->
  request_fits (Node.l1 node) (waypoint_id req)
               (retained (_minimum_points (Node.l1 node)) voxels) voxelized ->
  instance_acquisition W (Node.l2 node) reqp msg' origin' voxels' voxelized' ->
  request_fits (Node.l2 node) (InstanceRequest.waypoint_id reqp)
               (retained (_minimum_points (Node.l2 node)) voxels') voxelized' ->
  exists out node1 out' node2 cloud cloud',
    serve W node (PlainCall req) res = Some (out, node1) /\
    serve W node1 (InstanceCall reqp) res' = Some (out', node2) /\
    _stored_waypoints (Node.l1 node2) =
      <[waypoint_id req := cloud]> (_stored_waypoints (Node.l1 node)) /\
    _stored_waypoints (Node.l2 node2) =
      <[InstanceRequest.waypoint_id reqp := cloud']>
        (_stored_waypoints (Node.l2 node)) /\
    published (events out) = [fuse (stored_clouds (Node.l1 node2))] /\
    published (events out') = [fuse (stored_clouds (Node.l2 node2))].
Proof.
  intros HCpos HCpos' Hacq Hfits Hacq' Hfits'.
  eexists (success W (Node.l1 node) req msg voxels voxelized), _,
          (success W (Node.l2 node) (waypoint_of reqp) msg' voxels' voxelized'),
          _, _, _.
  unfold serve.
  rewrite (label_cloud_spec W _ req res msg origin voxels voxelized Hacq Hfits).
  split; [reflexivity|]. cbn [Node.l1 Node.l2 mbind option_bind].
  rewrite (label_cloud_plus_spec W _ reqp res' msg' origin' voxels' voxelized'
             Hacq' Hfits').
  split; [reflexivity|]. cbn [Node.l1 Node.l2].
  split; [reflexivity|]. split; [reflexivity|].
  split; apply success_published.
Qed.

End Services.

(** ** The further properties at work in the small world *)

Lemma max_label_of_in_range_witness :
  Float32.is_nan (MatrixXf.coeff Edge.nan_later_map 1 0) = true /\
  max_label_of 3 Edge.nan_later_map 0 = 2 /\
  0 <= max_label_of 3 Edge.nan_later_map 0 < 3 /\
  (max_label_of 3 Edge.nan_later_map 0 = 0 \/
   Float32.is_nan
     (MatrixXf.coeff Edge.nan_later_map (max_label_of 3 Edge.nan_later_map 0) 0)
     = false).
Proof.
  split; [reflexivity|]. split; [reflexivity|].
  apply (max_label_of_in_range 3 Edge.nan_later_map 0). lia.
Defined.

Lemma max_label_of_nan_first_witness :
  Float32.is_nan (MatrixXf.coeff Edge.nan_map 0 0) = true /\
  Float32.is_nan (MatrixXf.coeff Edge.nan_map 1 0) = false /\
  max_label_of 3 Edge.nan_map 0 = 0.
Proof.
  split; [reflexivity|]. split; [reflexivity|].
  apply (max_label_of_nan_first 3 Edge.nan_map 0). reflexivity.
Defined.

Lemma frequencies_are_column_means_witness :
  acquisition Scenario.world Scenario.l1 Scenario.reqA (Scenario.cloud_of 7)
              Scenario.origin Scenario.voxelsA Scenario.voxelizedA /\
  exists out,
    label_cloud Scenario.world Scenario.l1 Scenario.reqA Response.empty = Some out /\
    Response.label_frequencies (response out) !! 0%nat = Some Scenario.half /\
    Response.label_frequencies (response out) !! 2%nat = Some Scenario.quarter.
Proof.
  split; [repeat split|].
  pose proof (frequencies_are_column_means Scenario.world Scenario.l1
                Scenario.reqA Response.empty (Scenario.cloud_of 7) Scenario.origin
                Scenario.voxelsA Scenario.voxelizedA) as H.
  cbv zeta in H.
  destruct H as (out & Hrun & Hfreq).
  - reflexivity.
  - repeat split.
  - by_evaluation.
  - exists out. split; [exact Hrun|]. split.
    + rewrite (Hfreq 0%nat) by by_evaluation. vm_compute. reflexivity.
    + rewrite (Hfreq 2%nat) by by_evaluation. vm_compute. reflexivity.
Defined.

Lemma response_is_overwritten_witness :
  acquisition Scenario.world Scenario.l1 Scenario.reqA (Scenario.cloud_of 7)
              Scenario.origin Scenario.voxelsA Scenario.voxelizedA /\
  exists out,
    label_cloud Scenario.world Scenario.l1 Scenario.reqA Response.empty = Some out /\
    label_cloud Scenario.world Scenario.l1 Scenario.reqA Edge.stale_response
      = Some out.
Proof.
  split; [repeat split|].
  destruct (response_is_overwritten Scenario.world Scenario.l1 Scenario.reqA
              Response.empty Edge.stale_response (Scenario.cloud_of 7)
              Scenario.origin Scenario.voxelsA Scenario.voxelizedA)
    as (out & Hrun & Hrun' & _).
  - reflexivity.
  - repeat split.
  - by_evaluation.
  - exists out. split; assumption.
Defined.

Lemma request_changes_one_entry_witness :
  acquisition Scenario.world Scenario.l1 Scenario.reqA (Scenario.cloud_of 7)
              Scenario.origin Scenario.voxelsA Scenario.voxelizedA /\
  exists out,
    label_cloud Scenario.world Scenario.l1 Scenario.reqA Response.empty = Some out /\
    _frame_id (labeler out) = "map"%string /\
    _stored_waypoints (labeler out) !! "B"%string = None.
Proof.
  split; [repeat split|].
  destruct (request_changes_one_entry Scenario.world Scenario.l1 Scenario.reqA
              Response.empty (Scenario.cloud_of 7)
              Scenario.origin Scenario.voxelsA Scenario.voxelizedA)
    as (out & cloud & Hrun & _ & Hframe & _ & Hother & _).
  - reflexivity.
  - repeat split.
  - by_evaluation.
  - exists out. split; [exact Hrun|]. split; [exact Hframe|].
    rewrite Hother by done. reflexivity.
Defined.

Lemma repeated_request_is_idempotent_witness :
  acquisition Scenario.world Scenario.l1 Scenario.reqA (Scenario.cloud_of 7)
              Scenario.origin Scenario.voxelsA Scenario.voxelizedA /\
  exists out,
    label_cloud Scenario.world Scenario.l1 Scenario.reqA Response.empty = Some out /\
    label_cloud Scenario.world (labeler out) Scenario.reqA Response.empty = Some out.
Proof.
  split; [repeat split|].
  apply (repeated_request_is_idempotent Scenario.world Scenario.l1 Scenario.reqA
           Response.empty Response.empty (Scenario.cloud_of 7)
           Scenario.origin Scenario.voxelsA Scenario.voxelizedA).
  - reflexivity.
  - repeat split.
  - by_evaluation.
Defined.

Lemma events_in_order_witness :
  acquisition Scenario.world Scenario.l1 Scenario.reqA (Scenario.cloud_of 7)
              Scenario.origin Scenario.voxelsA Scenario.voxelizedA /\
  exists out,
    label_cloud Scenario.world Scenario.l1 Scenario.reqA Response.empty = Some out /\
    events out =
      [EvExtractVoxels; EvComputeFeatures 1;
       EvClassLogPosterior 1 (Float32.of_int <$> [0; 1; 2; 3; 4]);
       EvInference 5 3;
       EvPublish (fuse (stored_clouds (labeler out))) "map"].
Proof.
  split; [repeat split|].
  pose proof (events_in_order Scenario.world Scenario.l1 Scenario.reqA
                Response.empty (Scenario.cloud_of 7)
                Scenario.origin Scenario.voxelsA Scenario.voxelizedA) as H.
  cbv zeta in H.
  destruct H as (out & Hrun & Hevents).
  - reflexivity.
  - repeat split.
  - by_evaluation.
  - exists out. split; [exact Hrun|]. rewrite Hevents. reflexivity.
Defined.

Lemma nothing_retained_witness :
  acquisition Scenario.world Scenario.l1 Scenario.reqB (Scenario.cloud_of 2)
              Scenario.origin Scenario.voxelsB Scenario.voxelizedB /\
  exists out,
    label_cloud Scenario.world Scenario.l1 Scenario.reqB Response.empty = Some out /\
    returned out = true /\
    _stored_waypoints (labeler out) !! "B"%string =
      Some (all_black Scenario.voxelizedB) /\
    events out =
      [EvExtractVoxels; EvInference 0 3;
       EvPublish (fuse (stored_clouds (labeler out))) "map"].
Proof.
  split; [repeat split|].
  apply (nothing_retained Scenario.world Scenario.l1 Scenario.reqB
           Response.empty (Scenario.cloud_of 2)
           Scenario.origin Scenario.voxelsB Scenario.voxelizedB).
  - repeat split.
  - by_evaluation.
  - by_evaluation.
  - by_evaluation.
Defined.

Lemma instance_number_is_not_a_key_witness :
  instance_acquisition Scenario.world Edge.l2 Edge.first_instance
    (Scenario.cloud_of 7) Scenario.origin Scenario.voxelsA Scenario.voxelizedA /\
  instance_acquisition Scenario.world Edge.l2 Edge.second_instance
    (Scenario.cloud_of 2) Scenario.origin Scenario.voxelsB Scenario.voxelizedB /\
  exists out1 out2 cloud2,
    Plus.label_cloud_plus Scenario.world Edge.l2 Edge.first_instance
                          Response.empty = Some out1 /\
    Plus.label_cloud_plus Scenario.world (labeler out1) Edge.second_instance
                          Response.empty = Some out2 /\
    _stored_waypoints (labeler out2) = <["A"%string := cloud2]> ∅ /\
    length (PointCloud.points cloud2) = 2%nat.
Proof.
  split; [repeat split|]. split; [repeat split|].
  destruct (instance_number_is_not_a_key Scenario.world Edge.l2
              Edge.first_instance Edge.second_instance
              Response.empty Response.empty
              (Scenario.cloud_of 7) (Scenario.cloud_of 2)
              Scenario.origin Scenario.origin
              Scenario.voxelsA Scenario.voxelsB
              Scenario.voxelizedA Scenario.voxelizedB)
    as (out1 & out2 & cloud2 & Hrun1 & Hrun2 & _ & Hstore & Hlen).
  - reflexivity.
  - reflexivity.
  - repeat split.
  - by_evaluation.
  - repeat split.
  - by_evaluation.
  - exists out1, out2, cloud2. repeat split; assumption.
Defined.

Lemma arrival_order_is_forgotten_witness :
  let ab := [("A"%string, Scenario.observation_of 3);
             ("B"%string, Scenario.observation_of 4)] in
  let ba := [("B"%string, Scenario.observation_of 4);
             ("A"%string, Scenario.observation_of 3)] in
  fuse (stored_clouds (store_all Scenario.l1 ab)) =
    fuse (stored_clouds (store_all Scenario.l1 ba)).
Proof.
  intros ab ba.
  apply (arrival_order_is_forgotten Scenario.l1 ab ba).
  - by_evaluation.
  - apply perm_swap.
Defined.

Lemma higher_threshold_retains_less_witness :
  (filter_voxels Scenario.world 2 Scenario.voxelsA 0).1.1 = 7 /\
  (filter_voxels Scenario.world 3 Scenario.voxelsA 0).1.1 = 5 /\
  sublist (filter_voxels Scenario.world 3 Scenario.voxelsA 0).1.2
          (filter_voxels Scenario.world 2 Scenario.voxelsA 0).1.2.
Proof.
  split; [reflexivity|]. split; [reflexivity|].
  apply (higher_threshold_retains_less Scenario.world 2 3 Scenario.voxelsA 0).
  - lia.
  - lia.
  - by_evaluation.
Defined.

Lemma main_gives_up_with_one_witness :
  main Edge.startup Scenario.client Scenario.client Scenario.client
       ["node"; "config.json"; "missing.dat"]%string = Some (Exit 1) /\
  main Edge.startup Scenario.client Scenario.client Scenario.client
       ["node"]%string = Some (Exit 1).
Proof.
  split.
  - apply (main_gives_up_with_one Edge.startup). right.
    exists "config.json"%string, "missing.dat"%string. repeat split.
  - apply (main_gives_up_with_one Edge.startup). left. simpl. lia.
Defined.

Lemma main_reads_past_one_argument_witness :
  main Edge.startup Scenario.client Scenario.client Scenario.client
       ["node"; "config.json"]%string = Some (Exit 1).
Proof.
  apply (main_reads_past_one_argument Edge.startup). reflexivity.
Defined.

Lemma main_spins_with_two_fresh_labelers_witness :
  main Edge.startup Scenario.client Scenario.client Scenario.client Edge.argv
    = Some (Spinning Edge.node) /\
  main Edge.startup Scenario.client Scenario.client Scenario.client
       ["node"; "missing.json"; "rf.dat"]%string = Some (Exit 1) /\
  _stored_waypoints (Node.l1 Edge.node) = ∅ /\
  _stored_waypoints (Node.l2 Edge.node) = ∅.
Proof.
  split; [reflexivity|]. split; [reflexivity|].
  destruct (main_spins_with_two_fresh_labelers Edge.startup Scenario.client
              Scenario.client Scenario.client Edge.argv Edge.node eq_refl)
    as (config_file & forest_file & conf & dl & forest
        & _ & _ & _ & _ & _ & _ & H1 & H2).
  split; assumption.
Defined.

Lemma services_keep_separate_stores_witness :
  main Edge.startup Scenario.client Scenario.client Scenario.client Edge.argv
    = Some (Spinning Edge.node) /\
  exists out node1 out' node2,
    serve Scenario.world Edge.node (PlainCall Scenario.reqA) Response.empty
      = Some (out, node1) /\
    serve Scenario.world node1 (InstanceCall Edge.reqpB) Response.empty
      = Some (out', node2) /\
    published (events out') = [fuse (stored_clouds (Node.l2 node2))] /\
    _stored_waypoints (Node.l2 node2) !! "A"%string = None /\
    is_Some (_stored_waypoints (Node.l1 node2) !! "A"%string).
Proof.
  split; [reflexivity|].
  destruct (services_keep_separate_stores Scenario.world Edge.node Scenario.reqA
              Edge.reqpB Response.empty Response.empty
              (Scenario.cloud_of 7) (Scenario.cloud_of 2)
              Scenario.origin Scenario.origin
              Scenario.voxelsA Scenario.voxelsB
              Scenario.voxelizedA Scenario.voxelizedB)
    as (out & node1 & out' & node2 & cloud & cloud' & Hrun & Hrun' & Hl1 & Hl2
        & _ & Hpub).
  - reflexivity.
  - reflexivity.
  - repeat split.
  - by_evaluation.
  - repeat split.
  - by_evaluation.
  - exists out, node1, out', node2.
    split; [exact Hrun|]. split; [exact Hrun'|]. split; [exact Hpub|].
    rewrite Hl1, Hl2. split.
    + rewrite lookup_insert_ne by done. reflexivity.
    + rewrite lookup_insert_eq. by eexists.
Defined.

Lemma member_index_outside_the_cloud_witness :
  acquisition Scenario.world Edge.careless Scenario.reqB (Scenario.cloud_of 2)
              Scenario.origin [(1, Scenario.segment [0; 1; 9])] Scenario.voxelizedB /\
  label_cloud Scenario.world Edge.careless Scenario.reqB Response.empty = None.
Proof.
  split; [repeat split|].
  apply (member_index_outside_the_cloud Scenario.world Edge.careless Scenario.reqB
           Response.empty (Scenario.cloud_of 2) Scenario.origin
           [(1, Scenario.segment [0; 1; 9])] Scenario.voxelizedB).
  - repeat split.
  - by_evaluation.
Defined.
